(** * The provisioning pipeline of anaconda-project

    A shallow embedding of [project/prepare.py] ([prepare], [unprepare]) and
    of [project/plugins/providers/download.py] ([DownloadProvider]).

    Python dictionaries are finite maps ([gmap]); objects mutated in place
    (the working environment, the local state file, a provide context) are
    threaded explicitly; a call that may raise returns a [PyResult]. *)

From stdpp Require Import base option list strings gmap fin_maps pretty.
From Equations Require Import Equations.
From Equations.Prop Require Import Logic.
From Stdlib Require Ascii.

Open Scope string_scope.
Open Scope nat_scope.
Open Scope list_scope.

(** ** Python values shared by all modules *)

(** The exceptions that the embedded code can raise. *)
Inductive PyExn : Type :=
  | ValueError (msg : string)
  | UnboundLocalError (name : string)
  | KeyError (key : string)
  | OSError (msg : string)
  | OtherException (msg : string).

Inductive PyResult (A : Type) : Type :=
  | Return (a : A)
  | Raise (e : PyExn).
Arguments Return {A} a.
Arguments Raise {A} e.

Definition returns {A} (r : PyResult A) : Prop :=
  match r with Return _ => True | Raise _ => False end.

(** [os.environ]-like mappings, string to string. *)
Abbreviation Environ := (gmap string string).

(** [d[key]] on a string-keyed dictionary: [KeyError] when absent. *)
Definition getitem {V} (d : gmap string V) (key : string) : PyResult V :=
  match d !! key with
  | Some v => Return v
  | None => Raise (KeyError key)
  end.

(** [str(n)] for an integer. *)
Definition str_int (n : Z) : string := pretty n.

(** ** The local state store *)

Module LocalState.

(** A command line as given to [subprocess.call]: the argument vector. *)
Definition Command : Type := list string.

(** One service's run state: a dictionary that may carry the key
    ['shutdown_commands'] and any other string properties. *)
Record RunState : Type := mkRunState {
  shutdown_commands : option (list Command);
  properties : gmap string string
}.

(** [dict()] *)
Definition empty_run_state : RunState :=
  {| shutdown_commands := None; properties := ∅ |}.

(** What the store holds: configuration values and service run states. *)
Record Contents : Type := mkContents {
  values : gmap string string;
  service_run_states : gmap string RunState
}.

Definition empty_contents : Contents :=
  {| values := ∅; service_run_states := ∅ |}.

(** Modelled from the spec: the class [LocalStateFile] of
    [project/local_state_file.py] is not part of the sources at hand. The
    spec gives its interface as a key/value store with
    [get_all_service_run_states() -> {name: {..., "shutdown_commands":
    [command...]}}], [set_service_run_state(name, state)] and [save()].
    An instance is the directory it was loaded for and its in-memory
    contents. *)
Record LocalStateFile : Type := mkLocalStateFile {
  directory_path : string;
  contents : Contents
}.

(** Modelled from the spec: the persisted stores, one per project
    directory. *)
Abbreviation Disk := (gmap string Contents).

(** Modelled from the spec: [LocalStateFile.load_for_directory]; a
    directory without a persisted store loads as an empty one. *)
Definition load_for_directory (disk : Disk) (dir : string) : LocalStateFile :=
  {| directory_path := dir; contents := default empty_contents (disk !! dir) |}.

(** Modelled from the spec: [get_all_service_run_states]. *)
Definition get_all_service_run_states (ls : LocalStateFile) : gmap string RunState :=
  service_run_states (contents ls).

(** Modelled from the spec: [set_service_run_state(name, state)]. *)
Definition set_service_run_state (name : string) (state : RunState)
    (ls : LocalStateFile) : LocalStateFile :=
  {| directory_path := directory_path ls;
     contents := {| values := values (contents ls);
                    service_run_states := <[name := state]> (service_run_states (contents ls)) |} |}.

(** Modelled from the spec: [save()] persists the in-memory contents. *)
Definition save (ls : LocalStateFile) (disk : Disk) : Disk :=
  <[directory_path ls := contents ls]> disk.

End LocalState.

(** ** The prepare engine ([project/prepare.py]) *)

Module Prepare.
Import LocalState.

Definition UI_MODE_TEXT : string := "text".
Definition UI_MODE_BROWSER : string := "browser".
Definition UI_MODE_NOT_INTERACTIVE : string := "not_interactive".

Definition _all_ui_modes : list string :=
  [UI_MODE_TEXT; UI_MODE_BROWSER; UI_MODE_NOT_INTERACTIVE].

(** [ProviderRegistry()] carries no state of its own. *)
Inductive ProviderRegistry : Type := mkProviderRegistry.

(** [ProvideContext(environ, local_state_file, config)]: the environment
    and the local state are the engine's own objects, shared by reference
    with every context; [logs] and [errors] start empty. *)
Record ProvideContext (Config : Type) : Type := mkProvideContext {
  environ : Environ;
  local_state_file : LocalStateFile;
  config : Config;
  logs : list string;
  errors : list string
}.
Arguments mkProvideContext {Config}.
Arguments environ {Config}.
Arguments local_state_file {Config}.
Arguments config {Config}.
Arguments logs {Config}.
Arguments errors {Config}.

Definition new_ProvideContext {Config} (env : Environ) (ls : LocalStateFile)
    (cfg : Config) : ProvideContext Config :=
  mkProvideContext env ls cfg [] [].

(** The methods of a requirement object that [prepare] calls. *)
Class Requirement (R P : Type) : Type := {
  title : R → string;
  why_not_provided : R → Environ → option string;
  find_providers : R → ProviderRegistry → list P
}.

(** The methods of a provider object that [prepare] calls. [provide]
    mutates its context in place and, like any Python call, may raise: the
    context it leaves behind is returned in both cases. *)
Class Provider (R P Config : Type) : Type := {
  read_config : P → LocalStateFile → R → Config;
  provide : P → R → ProvideContext Config → PyResult unit * ProvideContext Config
}.

(** [ConfigurePrepareContext(io_loop, local_state_file,
    requirements_and_providers)]; the event loop plays no part in what
    follows and is left out. *)
Record ConfigurePrepareContext (R P : Type) : Type := mkConfigurePrepareContext {
  cfg_local_state_file : LocalStateFile;
  requirements_and_providers : list (R * list P)
}.
Arguments mkConfigurePrepareContext {R P}.
Arguments cfg_local_state_file {R P}.
Arguments requirements_and_providers {R P}.

(** The two user interfaces that [_configure_prepare] instantiates. Their
    classes live in [project/internal/prepare_ui.py]; [configure_prepare]
    may record configuration choices in the local state it is handed, and
    the local state it leaves behind is what the call returns here. *)
Inductive PrepareUI : Type := NotInteractivePrepareUI | BrowserPrepareUI.

Class ConfigureUI (R P : Type) : Type := {
  configure_prepare : PrepareUI → ConfigurePrepareContext R P → LocalStateFile
}.

Record Project (R : Type) : Type := mkProject {
  project_directory_path : string;
  requirements : list R
}.
Arguments mkProject {R}.
Arguments project_directory_path {R}.
Arguments requirements {R}.

Section Engine.
Context {R P Config : Type}.
Context `{!Requirement R P, !Provider R P Config, !ConfigureUI R P}.

(** What a spy on the requirement and provider objects records. *)
Inductive Call : Type :=
  | CallWhyNotProvided (r : R) (env : Environ)
  | CallReadConfig (p : P) (r : R)
  | CallProvide (p : P) (r : R).

(** The objects that [prepare] mutates while it runs. *)
Record Engine : Type := mkEngine {
  environ_copy : Environ;
  local_state : LocalStateFile;
  stdout : list string;
  stderr : list string;
  calls : list Call
}.

Definition record_call (c : Call) (st : Engine) : Engine :=
  mkEngine (environ_copy st) (local_state st) (stdout st) (stderr st) (calls st ++ [c]).

(** [print(line, file=sys.stdout)] for each of [lines]. *)
Definition print_stdout (lines : list string) (st : Engine) : Engine :=
  mkEngine (environ_copy st) (local_state st) (stdout st ++ lines) (stderr st) (calls st).

Definition print_stderr (lines : list string) (st : Engine) : Engine :=
  mkEngine (environ_copy st) (local_state st) (stdout st) (stderr st ++ lines) (calls st).

(** A provide context holds references to the engine's environment and
    local state: what the provider did to them is what the engine sees. *)
Definition sync_context (context : ProvideContext Config) (st : Engine) : Engine :=
  mkEngine (environ context) (local_state_file context) (stdout st) (stderr st) (calls st).

Definition _configure_prepare (ui_mode : string)
    (context : ConfigurePrepareContext R P) : PyResult LocalStateFile :=
  let ui :=
    if decide (ui_mode = UI_MODE_NOT_INTERACTIVE) then Some NotInteractivePrepareUI
    else if decide (ui_mode = UI_MODE_BROWSER) then Some BrowserPrepareUI
    else None in
  match ui with
  | Some ui => Return (configure_prepare ui context)
  | None => Raise (UnboundLocalError "ui")
  end.

(** Lines 70-73: one pair per requirement, in declaration order. *)
Definition resolve_providers (registry : ProviderRegistry) (reqs : list R) : list (R * list P) :=
  map (λ requirement, (requirement, find_providers requirement registry)) reqs.

(** Lines 89-92: the nested loop that appends to [plan]. *)
Fixpoint build_plan (pairs : list (R * list P)) : list (P * R) :=
  match pairs with
  | [] => []
  | (requirement, providers) :: rest =>
      map (λ provider, (provider, requirement)) providers ++ build_plan rest
  end.

(** Lines 95-108: the body of the loop over the plan. *)
Definition run_entry (entry : P * R) (st : Engine) : PyResult unit * Engine :=
  let '(provider, requirement) := entry in
  let st := record_call (CallWhyNotProvided requirement (environ_copy st)) st in
  match why_not_provided requirement (environ_copy st) with
  | None => (Return tt, st)
  | Some _ =>
      let st := record_call (CallReadConfig provider requirement) st in
      let config := read_config provider (local_state st) requirement in
      let context := new_ProvideContext (environ_copy st) (local_state st) config in
      let st := record_call (CallProvide provider requirement) st in
      let '(res, context) := provide provider requirement context in
      let st := sync_context context st in
      match res with
      | Raise e => (Raise e, st)
      | Return _ =>
          let st := match errors context with
                    | [] => st
                    | _ :: _ => print_stdout (logs context) st
                    end in
          (Return tt, print_stderr (errors context) st)
      end
  end.

(** Line 94: [for (provider, requirement) in plan]. *)
Fixpoint run_plan (plan : list (P * R)) (st : Engine) : PyResult unit * Engine :=
  match plan with
  | [] => (Return tt, st)
  | entry :: rest =>
      match run_entry entry st with
      | (Return _, st) => run_plan rest st
      | (Raise e, st) => (Raise e, st)
      end
  end.

(** Lines 110-117: the validation loop; [failed] is the flag it sets. *)
Fixpoint validate (reqs : list R) (failed : bool) (st : Engine) : bool * Engine :=
  match reqs with
  | [] => (failed, st)
  | requirement :: rest =>
      let st := record_call (CallWhyNotProvided requirement (environ_copy st)) st in
      match why_not_provided requirement (environ_copy st) with
      | Some why_not =>
          let st := print_stderr
                      ["missing requirement to run this project: " +:+ title requirement;
                       "  " +:+ why_not] st in
          validate rest true st
      | None => validate rest failed st
      end
  end.

(** Lines 125-127: the loop that writes the working copy back. *)
Definition commit (environ_copy environ : Environ) : Environ :=
  foldl (λ environ '(key, value),
           if decide (environ !! key = None ∨ environ !! key ≠ Some value)
           then <[key := value]> environ
           else environ)
        environ (map_to_list environ_copy).

(** What a call of [prepare] leaves behind: what it returned or raised,
    the caller's environment mapping after the call, and the engine's own
    objects if the call got as far as creating them. *)
Record PrepareOutcome : Type := mkPrepareOutcome {
  result : PyResult bool;
  caller_environ : Environ;
  working : option Engine
}.

(** [prepare(project, ui_mode, environ=environ)]. [environ] is the mapping
    the caller passes (or [os.environ]); [disk] holds the local state that
    [load_for_directory] reads. The tornado event loop that the function
    installs and restores takes no part in what is modelled. *)
Definition prepare (project : Project R) (ui_mode : string) (environ : Environ)
    (disk : Disk) : PrepareOutcome :=
  if decide (ui_mode ∉ _all_ui_modes) then
    mkPrepareOutcome (Raise (ValueError ("invalid UI mode " +:+ ui_mode))) environ None
  else
    (* environ_copy = deepcopy(environ): the engine's private copy *)
    let provider_registry := mkProviderRegistry in
    let requirements_and_providers :=
      resolve_providers provider_registry (requirements project) in
    let local_state := load_for_directory disk (project_directory_path project) in
    let configure_context := mkConfigurePrepareContext local_state requirements_and_providers in
    match _configure_prepare ui_mode configure_context with
    | Raise e => mkPrepareOutcome (Raise e) environ (Some (mkEngine environ local_state [] [] []))
    | Return local_state =>
        let st := mkEngine environ local_state [] [] [] in
        let plan := build_plan requirements_and_providers in
        match run_plan plan st with
        | (Raise e, st) => mkPrepareOutcome (Raise e) environ (Some st)
        | (Return _, st) =>
            let '(failed, st) := validate (requirements project) false st in
            if failed then mkPrepareOutcome (Return false) environ (Some st)
            else mkPrepareOutcome (Return true) (commit (environ_copy st) environ) (Some st)
        end
    end.

(** *** Vocabulary for the statements about [prepare] *)

(** The calls made when the loop over the plan reaches [entry] with
    working environment [env]. *)
Definition entry_calls (entry : P * R) (env : Environ) : list Call :=
  CallWhyNotProvided entry.2 env ::
  match why_not_provided entry.2 env with
  | None => []
  | Some _ => [CallReadConfig entry.1 entry.2; CallProvide entry.1 entry.2]
  end.

Definition is_why_not_provided (c : Call) : bool :=
  match c with CallWhyNotProvided _ _ => true | _ => false end.

(** The calls that went to a provider. *)
Definition provider_calls (cs : list Call) : list Call :=
  filter (λ c, is_why_not_provided c = false) cs.

(** The requirements that [env] leaves unmet, each with its title and
    the reason [why_not_provided] gives. *)
Definition unmet (reqs : list R) (env : Environ) : list (string * string) :=
  omap (λ r, (λ why_not, (title r, why_not)) <$> why_not_provided r env) reqs.

(** What the validation loop prints for them. *)
Definition report_lines (u : list (string * string)) : list string :=
  flat_map (λ '(t, why_not),
              ["missing requirement to run this project: " +:+ t; "  " +:+ why_not]) u.

(** What lines 101-103 print on standard output for the context that a
    provider has left: its logs, when it holds an error. *)
Definition printed_logs (context : ProvideContext Config) : list string :=
  match errors context with
  | [] => []
  | _ :: _ => logs context
  end.

(** A provider, its requirement and the context that its [provide] has
    left on returning, when called as lines 95-100 call it: for a
    requirement that is not met, on a context fresh from line 99. *)
Definition provided_by (item : P * R * ProvideContext Config) : Prop :=
  ∃ env ls why_not,
    why_not_provided item.1.2 env = Some why_not ∧
    provide item.1.1 item.1.2
            (new_ProvideContext env ls (read_config item.1.1 ls item.1.2))
    = (Return tt, item.2).

(** The calls that a spy records for them. *)
Definition provide_calls (provided : list (P * R * ProvideContext Config)) : list Call :=
  flat_map (λ item, [CallReadConfig item.1.1 item.1.2; CallProvide item.1.1 item.1.2])
           provided.

End Engine.
(** *** [unprepare] *)

Section Unprepare.
Context {OS : Type}.

(** [subprocess.call(command)]: runs the command to completion on the
    host and returns its exit code, or raises [OSError] when the command
    cannot be started. *)
Variable subprocess_call : Command → OS → PyResult Z * OS.

(** [repr(command)] *)
Variable repr : Command → string.

(** Everything outside the interpreter that [unprepare] touches. *)
Record Host : Type := mkHost {
  host_disk : Disk;
  host_os : OS;
  host_stdout : list string;
  host_launched : list Command
}.

Definition host_print (line : string) (w : Host) : Host :=
  mkHost (host_disk w) (host_os w) (host_stdout w ++ [line]) (host_launched w).

Definition host_save (ls : LocalStateFile) (w : Host) : Host :=
  mkHost (save ls (host_disk w)) (host_os w) (host_stdout w) (host_launched w).

(** Lines 151-154: [for command in commands]. *)
Fixpoint run_commands (commands : list Command) (w : Host) : PyResult unit * Host :=
  match commands with
  | [] => (Return tt, w)
  | command :: rest =>
      let w := host_print ("Running " +:+ repr command) w in
      let '(code, os) := subprocess_call command (host_os w) in
      let w := mkHost (host_disk w) os (host_stdout w) (host_launched w ++ [command]) in
      match code with
      | Raise e => (Raise e, w)
      | Return code =>
          run_commands rest (host_print ("  exited with " +:+ str_int code) w)
      end
  end.

(** Lines 147-157: the loop over the service names. [run_states] is the
    dictionary held by [local_state] itself, so it is read through
    [local_state]; the names were copied before the loop started. *)
Fixpoint shutdown_services (names : list string) (local_state : LocalStateFile)
    (w : Host) : PyResult unit * LocalStateFile * Host :=
  match names with
  | [] => (Return tt, local_state, w)
  | service_name :: rest =>
      match getitem (get_all_service_run_states local_state) service_name with
      | Raise e => (Raise e, local_state, w)
      | Return state =>
          let '(res, w) :=
            match shutdown_commands state with
            | Some commands => run_commands commands w
            | None => (Return tt, w)
            end in
          match res with
          | Raise e => (Raise e, local_state, w)
          | Return _ =>
              let local_state := set_service_run_state service_name empty_run_state local_state in
              shutdown_services rest local_state (host_save local_state w)
          end
      end
  end.

Definition unprepare {R} (project : Project R) (w : Host)
    : PyResult unit * LocalStateFile * Host :=
  let local_state := load_for_directory (host_disk w) (project_directory_path project) in
  let run_states := get_all_service_run_states local_state in
  shutdown_services (map fst (map_to_list run_states)) local_state w.

End Unprepare.
End Prepare.

(** ** [prepare] when the objects it calls raise

    [prepare] has no [try] block. The engine of the module [Prepare]
    takes every method other than [provide] to return; here each call
    that [prepare] makes on a requirement, a provider or the user
    interface may raise, as any Python call may. The data and the
    bookkeeping are those of [Prepare]. Creating the event loop, copying
    the environment, loading the local state and printing are taken to
    succeed. *)

Module Unguarded.
Import LocalState.
Export Prepare(UI_MODE_TEXT, UI_MODE_BROWSER, UI_MODE_NOT_INTERACTIVE, _all_ui_modes,
               ProviderRegistry, mkProviderRegistry,
               ProvideContext, mkProvideContext, new_ProvideContext,
               ConfigurePrepareContext, mkConfigurePrepareContext,
               PrepareUI, NotInteractivePrepareUI, BrowserPrepareUI,
               Project, mkProject, project_directory_path, requirements,
               Call, CallWhyNotProvided, CallReadConfig, CallProvide,
               Engine, mkEngine, environ_copy, local_state, stdout, stderr, calls,
               record_call, print_stdout, print_stderr, sync_context,
               build_plan, commit,
               PrepareOutcome, mkPrepareOutcome, result, caller_environ, working).

(** [find_providers] (line 72) and [why_not_provided] (lines 95 and 112). *)
Class Requirement (R P : Type) : Type := {
  title : R → string;
  why_not_provided : R → Environ → PyResult (option string);
  find_providers : R → ProviderRegistry → PyResult (list P)
}.

(** [read_config] (line 98) and [provide] (line 100). *)
Class Provider (R P Config : Type) : Type := {
  read_config : P → LocalStateFile → R → PyResult Config;
  provide : P → R → ProvideContext Config → PyResult unit * ProvideContext Config
}.

(** [configure_prepare] (line 29); the local state it leaves behind
    comes back in both cases. *)
Class ConfigureUI (R P : Type) : Type := {
  configure_prepare : PrepareUI → ConfigurePrepareContext R P → PyResult unit * LocalStateFile
}.

Section Engine.
Context {R P Config : Type}.
Context `{!Requirement R P, !Provider R P Config, !ConfigureUI R P}.

Definition _configure_prepare (ui_mode : string)
    (context : ConfigurePrepareContext R P) : PyResult unit * LocalStateFile :=
  let ui :=
    if decide (ui_mode = UI_MODE_NOT_INTERACTIVE) then Some NotInteractivePrepareUI
    else if decide (ui_mode = UI_MODE_BROWSER) then Some BrowserPrepareUI
    else None in
  match ui with
  | Some ui => configure_prepare ui context
  | None => (Raise (UnboundLocalError "ui"), Prepare.cfg_local_state_file context)
  end.

(** Lines 70-73. *)
Fixpoint resolve_providers (registry : ProviderRegistry) (reqs : list R)
    : PyResult (list (R * list P)) :=
  match reqs with
  | [] => Return []
  | requirement :: rest =>
      match find_providers requirement registry with
      | Raise e => Raise e
      | Return providers =>
          match resolve_providers registry rest with
          | Raise e => Raise e
          | Return pairs => Return ((requirement, providers) :: pairs)
          end
      end
  end.

(** Lines 95-108. *)
Definition run_entry (entry : P * R) (st : @Engine R P) : PyResult unit * @Engine R P :=
  let '(provider, requirement) := entry in
  let st := record_call (CallWhyNotProvided requirement (environ_copy st)) st in
  match why_not_provided requirement (environ_copy st) with
  | Raise e => (Raise e, st)
  | Return None => (Return tt, st)
  | Return (Some _) =>
      let st := record_call (CallReadConfig provider requirement) st in
      match read_config provider (local_state st) requirement with
      | Raise e => (Raise e, st)
      | Return config =>
          let context := new_ProvideContext (environ_copy st) (local_state st) config in
          let st := record_call (CallProvide provider requirement) st in
          let '(res, context) := provide provider requirement context in
          let st := sync_context context st in
          match res with
          | Raise e => (Raise e, st)
          | Return _ =>
              let st := match Prepare.errors context with
                        | [] => st
                        | _ :: _ => print_stdout (Prepare.logs context) st
                        end in
              (Return tt, print_stderr (Prepare.errors context) st)
          end
      end
  end.

(** Line 94. *)
Fixpoint run_plan (plan : list (P * R)) (st : @Engine R P) : PyResult unit * @Engine R P :=
  match plan with
  | [] => (Return tt, st)
  | entry :: rest =>
      match run_entry entry st with
      | (Return _, st) => run_plan rest st
      | (Raise e, st) => (Raise e, st)
      end
  end.

(** Lines 110-117. *)
Fixpoint validate (reqs : list R) (failed : bool) (st : @Engine R P)
    : PyResult bool * @Engine R P :=
  match reqs with
  | [] => (Return failed, st)
  | requirement :: rest =>
      let st := record_call (CallWhyNotProvided requirement (environ_copy st)) st in
      match why_not_provided requirement (environ_copy st) with
      | Raise e => (Raise e, st)
      | Return (Some why_not) =>
          let st := print_stderr
                      ["missing requirement to run this project: " +:+ title requirement;
                       "  " +:+ why_not] st in
          validate rest true st
      | Return None => validate rest failed st
      end
  end.

(** [prepare(project, ui_mode, environ=environ)]. An exception leaves
    the function at once: nothing after the call that raised is run. *)
Definition prepare (project : Project R) (ui_mode : string) (environ : Environ)
    (disk : Disk) : @PrepareOutcome R P :=
  if decide (ui_mode ∉ _all_ui_modes) then
    mkPrepareOutcome (Raise (ValueError ("invalid UI mode " +:+ ui_mode))) environ None
  else
    let provider_registry := mkProviderRegistry in
    match resolve_providers provider_registry (requirements project) with
    | Raise e => mkPrepareOutcome (Raise e) environ None
    | Return requirements_and_providers =>
        let local_state := load_for_directory disk (project_directory_path project) in
        let configure_context :=
          mkConfigurePrepareContext local_state requirements_and_providers in
        match _configure_prepare ui_mode configure_context with
        | (Raise e, local_state) =>
            mkPrepareOutcome (Raise e) environ (Some (mkEngine environ local_state [] [] []))
        | (Return _, local_state) =>
            let st := mkEngine environ local_state [] [] [] in
            let plan := build_plan requirements_and_providers in
            match run_plan plan st with
            | (Raise e, st) => mkPrepareOutcome (Raise e) environ (Some st)
            | (Return _, st) =>
                match validate (requirements project) false st with
                | (Raise e, st) => mkPrepareOutcome (Raise e) environ (Some st)
                | (Return failed, st) =>
                    if (failed : bool) then mkPrepareOutcome (Return false) environ (Some st)
                    else mkPrepareOutcome (Return true)
                           (commit (environ_copy st) environ) (Some st)
                end
            end
        end
    end.

End Engine.

(** The objects of [Prepare], whose methods other than [provide] return,
    as objects of this module. *)
Section Returning.
Context {R P Config : Type}.
Context `{!Prepare.Requirement R P, !Prepare.Provider R P Config, !Prepare.ConfigureUI R P}.

Definition returning_requirement : Requirement R P := {|
  title := Prepare.title;
  why_not_provided r env := Return (Prepare.why_not_provided r env);
  find_providers r registry := Return (Prepare.find_providers r registry)
|}.

Definition returning_provider : Provider R P Config := {|
  read_config p ls r := Return (Prepare.read_config p ls r);
  provide := Prepare.provide
|}.

Definition returning_ui : ConfigureUI R P := {|
  configure_prepare ui context := (Return tt, Prepare.configure_prepare ui context)
|}.

End Returning.
End Unguarded.

(** ** The download provider ([project/plugins/providers/download.py]) *)

Module Download.
Import LocalState.

Inductive ProvideMode : Type :=
  | PROVIDE_MODE_PRODUCTION
  | PROVIDE_MODE_DEVELOPMENT
  | PROVIDE_MODE_CHECK.

#[global] Instance ProvideMode_eq_dec : EqDecision ProvideMode.
Proof. solve_decision. Defined.

(** The attributes of a download requirement that the provider reads. *)
Record DownloadRequirement : Type := mkDownloadRequirement {
  env_var : string;
  url : string;
  filename : string;
  hash_algorithm : option string
}.

(** [_DownloadProviderAnalysis] *)
Record _DownloadProviderAnalysis : Type := mkAnalysis {
  config : gmap string string;
  missing_env_vars_to_configure : list string;
  missing_env_vars_to_provide : list string;
  existing_filename : option string
}.

(** The provide context as this provider uses it: [context.environ],
    [context.mode], [context.status.analysis] and the two lists that
    [append_log] and [append_error] extend. *)
Record ProvideContext : Type := mkProvideContext {
  environ : Environ;
  mode : ProvideMode;
  analysis : _DownloadProviderAnalysis;
  logs : list string;
  errors : list string
}.

Definition append_log (message : string) (context : ProvideContext) : ProvideContext :=
  mkProvideContext (environ context) (mode context) (analysis context)
                   (logs context ++ [message]) (errors context).

Definition append_error (message : string) (context : ProvideContext) : ProvideContext :=
  mkProvideContext (environ context) (mode context) (analysis context)
                   (logs context) (errors context ++ [message]).

Definition setenv (key value : string) (context : ProvideContext) : ProvideContext :=
  mkProvideContext (<[key := value]> (environ context)) (mode context) (analysis context)
                   (logs context) (errors context).

(** What running the [FileDownloader] on the event loop comes to: a
    response with a status code, or an [Exception] whose [str] is given. *)
Inductive DownloadOutcome : Type :=
  | Response (code : Z)
  | DownloadRaises (message : string).

Section Provider.

(** The methods of the superclass [EnvVarProvider]
    ([project/plugins/provider.py]) that the overrides call first. *)
Variable EnvVarProvider_provide :
  DownloadRequirement → ProvideContext → PyResult unit * ProvideContext.
Variable EnvVarProvider_set_config_values_as_strings :
  DownloadRequirement → Environ → LocalStateFile → gmap string string → Environ * LocalStateFile.

(** [os.path.join] and [os.path.abspath]. *)
Variable os_path_join : string → string → string.
Variable os_path_abspath : string → string.

(** [_ioloop.run_sync(lambda: download.run(_ioloop))] for a downloader
    built from a url, a file name and a hash algorithm. Creating and
    closing the event loop and building the downloader are taken to
    succeed. *)
Variable run_download : string → string → option string → DownloadOutcome.

Definition set_config_values_as_strings (requirement : DownloadRequirement)
    (environ : Environ) (local_state_file : LocalStateFile)
    (values : gmap string string) : Environ * LocalStateFile :=
  let '(environ, local_state_file) :=
    EnvVarProvider_set_config_values_as_strings requirement environ local_state_file values in
  match values !! "source" with
  | Some source =>
      if decide (source ≠ "environ")
      then (delete (env_var requirement) environ, local_state_file)
      else (environ, local_state_file)
  | None => (environ, local_state_file)
  end.

Definition _provide_download (requirement : DownloadRequirement)
    (context : ProvideContext) : PyResult (option string) * ProvideContext :=
  match existing_filename (analysis context) with
  | Some filename =>
      (Return (Some filename),
       append_log ("Previously downloaded file located at " +:+ filename) context)
  | None =>
      match getitem (environ context) "PROJECT_DIR" with
      | Raise e => (Raise e, context)
      | Return project_dir =>
          let filename :=
            os_path_abspath (os_path_join project_dir (filename requirement)) in
          match run_download (url requirement) filename (hash_algorithm requirement) with
          | Response code =>
              if decide (code = 200%Z) then (Return (Some filename), context)
              else (Return None,
                    append_error ("Error downloading " +:+ url requirement +:+
                                  ": response code " +:+ str_int code) context)
          | DownloadRaises message =>
              (Return None,
               append_error ("Error downloading " +:+ url requirement +:+ ": " +:+ message)
                            context)
          end
      end
  end.

(** The test of line 121: [or] evaluates its right operand only when the
    variable is already in the environment. *)
Definition wants_download (requirement : DownloadRequirement)
    (context : ProvideContext) : PyResult bool :=
  match environ context !! env_var requirement with
  | None => Return true
  | Some _ =>
      match getitem (config (analysis context)) "source" with
      | Raise e => Raise e
      | Return source => Return (bool_decide (source = "download"))
      end
  end.

Definition provide (requirement : DownloadRequirement)
    (context : ProvideContext) : PyResult unit * ProvideContext :=
  match EnvVarProvider_provide requirement context with
  | (Raise e, context) => (Raise e, context)
  | (Return _, context) =>
      if decide (mode context = PROVIDE_MODE_CHECK) then (Return tt, context)
      else
        match wants_download requirement context with
        | Raise e => (Raise e, context)
        | Return false => (Return tt, context)
        | Return true =>
            match _provide_download requirement context with
            | (Raise e, context) => (Raise e, context)
            | (Return None, context) => (Return tt, context)
            | (Return (Some filename), context) =>
                (Return tt, setenv (env_var requirement) filename context)
            end
        end
  end.

End Provider.
End Download.

(** ** Two more exceptions *)

Module Builtins.

(** What a failing [assert] raises. *)
Definition AssertionError : PyExn := OtherException "AssertionError".

(** What the interpreter raises when calls nest deeper than its
    recursion limit. *)
Definition RecursionError : PyExn := OtherException "maximum recursion depth exceeded".

(** [s.startswith(prefix)] *)
Definition startswith (s prefix : string) : bool := String.prefix prefix s.

End Builtins.

(** ** The other methods of the download provider *)

Module DownloadMethods.
Import LocalState Download.
Export Builtins.

(** [ProviderAnalysis], what the [analyze] of the superclass returns. *)
Record ProviderAnalysis : Type := mkProviderAnalysis {
  base_config : gmap string string;
  base_missing_env_vars_to_configure : list string;
  base_missing_env_vars_to_provide : list string
}.

Section Methods.

(** The methods of the superclass [EnvVarProvider] that the overrides
    call first. *)
Variable EnvVarProvider_read_config :
  DownloadRequirement → Environ → LocalStateFile → gmap string string.
Variable EnvVarProvider_analyze :
  DownloadRequirement → Environ → LocalStateFile → ProviderAnalysis.

(** [os.path.join] and [os.path.exists]. *)
Variable os_path_join : string → string → string.
Variable os_path_exists : string → bool.

(** Lines 24-34. *)
Definition read_config (requirement : DownloadRequirement) (environ : Environ)
    (local_state_file : LocalStateFile) : PyResult (gmap string string) :=
  let config := EnvVarProvider_read_config requirement environ local_state_file in
  match config !! "source" with
  | None => Raise AssertionError
  | Some source =>
      if decide (source = "default") then Raise AssertionError
      else if decide (source = "unset") then Return (<["source" := "download"]> config)
      else Return config
  end.

(** Lines 72-83. *)
Definition analyze (requirement : DownloadRequirement) (environ : Environ)
    (local_state_file : LocalStateFile) : PyResult _DownloadProviderAnalysis :=
  let analysis := EnvVarProvider_analyze requirement environ local_state_file in
  match getitem environ "PROJECT_DIR" with
  | Raise e => Raise e
  | Return project_dir =>
      let filename := os_path_join project_dir (filename requirement) in
      let existing_filename := if os_path_exists filename then Some filename else None in
      Return (mkAnalysis (base_config analysis)
                         (base_missing_env_vars_to_configure analysis)
                         (base_missing_env_vars_to_provide analysis)
                         existing_filename)
  end.

End Methods.
End DownloadMethods.

(** ** The in-place list helpers of [anaconda_project/project_ops.py] *)

Module ProjectOps.

Section Loops.
Context {A : Type}.

(** Lines 254-259: the [while] loop of [_filter_inplace], from index [i]
    on; [i < len(items)] holds exactly when [items[i]] exists, and
    [del items[i]] closes the gap. *)
Equations? _filter_inplace_loop (predicate : A → bool) (i : nat) (items : list A) : list A
  by wf (length items - i) lt :=
  _filter_inplace_loop keep i items with inspect (items !! i) => {
    | exist _ (Some item) Hitem =>
        if keep item then _filter_inplace_loop keep (i + 1) items
        else _filter_inplace_loop keep i (delete i items)
    | exist _ None Hitem => items }.
Proof.
  - apply lookup_lt_Some in Hitem. lia.
  - pose proof (lookup_lt_Some _ _ _ Hitem). rewrite length_delete by (by eexists). lia.
Qed.

(** [_filter_inplace(predicate, items)]: the list that [items] has become
    when the call is over. *)
Definition _filter_inplace (predicate : A → bool) (items : list A) : list A :=
  _filter_inplace_loop predicate 0 items.

(** Lines 263-266: the [while] loop of [_map_inplace]. *)
Equations? _map_inplace_loop (f : A → A) (i : nat) (items : list A) : list A
  by wf (length items - i) lt :=
  _map_inplace_loop f i items with inspect (items !! i) => {
    | exist _ (Some item) Hitem => _map_inplace_loop f (i + 1) (<[i := f item]> items)
    | exist _ None Hitem => items }.
Proof.
  apply lookup_lt_Some in Hitem. rewrite length_insert. lia.
Qed.

Definition _map_inplace (f : A → A) (items : list A) : list A :=
  _map_inplace_loop f 0 items.

End Loops.
End ProjectOps.

(** ** Unpacking an archive ([conda_kapsel/archiver.py]) *)

Module Archiver.
Import Builtins.

(** How reading the ignore file ends: at the end of the file; with an
    [OSError] or [IOError], of which the handler of line 130 looks at
    whether its [errno] is [ENOENT] and at its [str]; or with an
    exception of another class, which that handler does not catch, as
    the [UnicodeDecodeError] that [codecs.open(filename, 'r', 'utf-8')]
    gives on bytes that are not UTF-8. *)
Inductive ReadEnd : Type :=
  | EndOfFile
  | ReadOSError (enoent : bool) (message : string)
  | ReadRaises (e : PyExn).

(** What reading the ignore file line by line comes to: the lines that
    were read, and how the reading ended. *)
Record FileRead : Type := mkFileRead {
  lines_read : list string;
  read_end : ReadEnd
}.

Section Archiver.

(** [os.path] and [os] functions, and [path.replace("/", os.sep)]. *)
Variable os_path_split : string → string * string.
Variable os_path_join : string → string → string.
Variable os_path_isabs : string → bool.
Variable os_path_abspath : string → string.
Variable os_path_realpath : string → string.
Variable os_path_dirname : string → string.
Variable os_path_exists : string → bool.
Variable os_getcwd : string.
Variable to_os_sep : string → string.

(** How deep calls may nest before the interpreter gives up. *)
Variable recursion_limit : nat.

(** [line.strip()] *)
Variable strip : string → string.

(** Lines 396-406: the local function [_helper]; [depth] is the nesting
    that is left. *)
Fixpoint _helper (depth : nat) (head : string) (tail : option string)
    : PyResult (string * option string) :=
  match depth with
  | 0 => Raise RecursionError
  | S depth =>
      let '(dirname, filename) := os_path_split head in
      if decide (dirname = "") then Return (head, tail)
      else match tail with
           | None => _helper depth dirname (Some filename)
           | Some tail => _helper depth dirname (Some (os_path_join filename tail))
           end
  end.

Definition _split_after_first (path : string) : PyResult (string * option string) :=
  let path := to_os_sep path in
  _helper recursion_limit path None.

(** Lines 416-417: [_split_after_first] on every name, in order. *)
Fixpoint split_names (names : list string)
    : PyResult (list (string * string * option string)) :=
  match names with
  | [] => Return []
  | name :: rest =>
      match _split_after_first name with
      | Raise e => Raise e
      | Return (prefix, remainder) =>
          match split_names rest with
          | Raise e => Raise e
          | Return items => Return ((name, prefix, remainder) :: items)
          end
      end
  end.

(** Lines 447-463: the loop that fills [src_and_dest]. [None] is the
    early [return None]; the errors come back in both cases. *)
Fixpoint collect_destinations (items : list (string * string * option string))
    (candidate_prefix canonical_project_dir : string)
    (src_and_dest : list (string * string)) (errors : list string)
    : option (list (string * string)) * list string :=
  match items with
  | [] => (Some src_and_dest, errors)
  | (name, prefix, remainder) :: rest =>
      if decide (prefix ≠ candidate_prefix) then
        (None,
         errors ++ ["A valid project archive contains only one project directory " +:+
                    "with all files inside that directory. '" +:+ name +:+
                    "' is outside '" +:+ candidate_prefix +:+ "'."])
      else
        match remainder with
        | None =>
            collect_destinations rest candidate_prefix canonical_project_dir
                                 src_and_dest errors
        | Some remainder =>
            let dest := os_path_realpath
                          (os_path_abspath (os_path_join canonical_project_dir remainder)) in
            if negb (startswith dest canonical_project_dir) then
              (None,
               errors ++ ["Archive entry '" +:+ name +:+ "' would end up at '" +:+ dest +:+
                          "' which is outside '" +:+ canonical_project_dir +:+ "'."])
            else
              collect_destinations rest candidate_prefix canonical_project_dir
                                   (src_and_dest ++ [(name, dest)]) errors
        end
  end.

(** Lines 411-465. The result is what the function returns or raises
    and the list [errors] as the call leaves it. *)
Definition _get_source_and_dest_files (archive_path : string)
    (list_files : string → list string) (project_dir parent_dir : option string)
    (errors : list string)
    : PyResult (option (string * list (string * string))) * list string :=
  let names := list_files archive_path in
  match names with
  | [] => (Return None, errors ++ ["A valid project archive must contain at least one file."])
  | _ :: _ =>
      match split_names names with
      | Raise e => (Raise e, errors)
      | Return [] => (Raise (OtherException "IndexError"), errors)
      | Return ((first_name, candidate_prefix, first_remainder) :: rest) =>
          let items := (first_name, candidate_prefix, first_remainder) :: rest in
          if decide (candidate_prefix = "..") then
            (Return None,
             errors ++ ["Archive contains relative path '" +:+ first_name +:+
                        "' which is not allowed."])
          else
            let project_dir := default candidate_prefix project_dir in
            let dirs :=
              if os_path_isabs project_dir then
                match parent_dir with
                | Some _ => Raise AssertionError
                | None =>
                    let canonical_project_dir :=
                      os_path_realpath (os_path_abspath project_dir) in
                    Return (canonical_project_dir, os_path_dirname canonical_project_dir)
                end
              else
                let parent_dir := default os_getcwd parent_dir in
                let canonical_parent_dir := os_path_realpath (os_path_abspath parent_dir) in
                Return (os_path_realpath
                          (os_path_abspath (os_path_join canonical_parent_dir project_dir)),
                        canonical_parent_dir) in
            match dirs with
            | Raise e => (Raise e, errors)
            | Return (canonical_project_dir, canonical_parent_dir) =>
                if negb (startswith canonical_project_dir canonical_parent_dir) then
                  (Raise AssertionError, errors)
                else if os_path_exists canonical_project_dir then
                  (Return None,
                   errors ++ ["Directory '" +:+ canonical_project_dir +:+ "' already exists."])
                else
                  match collect_destinations items candidate_prefix canonical_project_dir
                                             [] errors with
                  | (None, errors) => (Return None, errors)
                  | (Some src_and_dest, errors) =>
                      (Return (Some (canonical_project_dir, src_and_dest)), errors)
                  end
            end
      end
  end.

(** [_FilePattern(pattern)]: the constructor asserts that the pattern is
    not empty. *)
Definition _FilePattern (pattern : string) : PyResult string :=
  if decide (pattern = "") then Raise AssertionError else Return pattern.

(** Lines 115-128: the loop over the lines of the ignore file. *)
Fixpoint parse_lines (lines : list string) (patterns : list string)
    : PyResult (list string) :=
  match lines with
  | [] => Return patterns
  | line :: rest =>
      let line := strip line in
      if startswith line "#" then parse_lines rest patterns
      else
        let line := if startswith line "\#"
                    then match line with String _ tail => tail | EmptyString => line end
                    else line in
        if decide (line ≠ "") then
          match _FilePattern line with
          | Raise e => Raise e
          | Return pattern => parse_lines rest (patterns ++ [pattern])
          end
        else parse_lines rest patterns
  end.

(** Lines 111-138: [_parse_ignore_file(filename, errors)], on what
    reading [filename] comes to. *)
Definition _parse_ignore_file (filename : string) (read : FileRead) (errors : list string)
    : PyResult (option (list string)) * list string :=
  match parse_lines (lines_read read) [] with
  | Raise e => (Raise e, errors)
  | Return patterns =>
      match read_end read with
      | EndOfFile => (Return (Some patterns), errors)
      | ReadOSError true _ => (Return (Some patterns), errors)
      | ReadOSError false message =>
          (Return None, errors ++ ["Failed to read " +:+ filename +:+ ": " +:+ message])
      | ReadRaises e => (Raise e, errors)
      end
  end.

End Archiver.
End Archiver.

(** ** Stub requirements and providers

    The objects that the engine's tests plug in: a requirement that is
    met when its environment variable is set, and providers that set it,
    fail to, remove another key first, or raise. *)

Module Scenario.
Import LocalState Prepare.

Inductive StubProvider : Type :=
  | SetsVariable (value : string)
  | ReportsError (log error : string)
  | PopsKey (key value : string)
  | RaisesError (message : string).

Record EnvVarRequirement : Type := mkEnvVarRequirement {
  req_title : string;
  req_env_var : string;
  req_providers : list StubProvider
}.

Definition stub_why_not_provided (r : EnvVarRequirement) (env : Environ) : option string :=
  match env !! req_env_var r with
  | Some _ => None
  | None => Some ("Environment variable " +:+ req_env_var r +:+ " is not set")
  end.

Definition stub_provide (p : StubProvider) (r : EnvVarRequirement)
    (context : ProvideContext unit) : PyResult unit * ProvideContext unit :=
  match p with
  | SetsVariable value =>
      (Return tt,
       mkProvideContext (<[req_env_var r := value]> (environ context))
                        (local_state_file context) tt (logs context) (errors context))
  | ReportsError log error =>
      (Return tt,
       mkProvideContext (environ context) (local_state_file context) tt
                        (logs context ++ [log]) (errors context ++ [error]))
  | PopsKey key value =>
      (Return tt,
       mkProvideContext (<[req_env_var r := value]> (delete key (environ context)))
                        (local_state_file context) tt (logs context) (errors context))
  | RaisesError message => (Raise (OtherException message), context)
  end.

#[global] Instance stub_requirement : Requirement EnvVarRequirement StubProvider := {
  title := req_title;
  why_not_provided := stub_why_not_provided;
  find_providers r _ := req_providers r
}.

#[global] Instance stub_provider : Provider EnvVarRequirement StubProvider unit := {
  read_config _ _ _ := tt;
  provide := stub_provide
}.

(** A user interface that changes nothing. *)
#[global] Instance stub_ui : ConfigureUI EnvVarRequirement StubProvider := {
  configure_prepare _ context := cfg_local_state_file context
}.

Definition FOO : EnvVarRequirement :=
  mkEnvVarRequirement "FOO requirement" "FOO" [].
Definition DATA_CSV : EnvVarRequirement :=
  mkEnvVarRequirement "data.csv requirement" "DATA_CSV" [SetsVariable "/project/data.csv"].
Definition DATA_CSV_failing : EnvVarRequirement :=
  mkEnvVarRequirement "data.csv requirement" "DATA_CSV"
    [ReportsError "starting download" "Error downloading data.csv"].
Definition REDIS_URL : EnvVarRequirement :=
  mkEnvVarRequirement "redis requirement" "REDIS_URL" [SetsVariable "redis://localhost:6379"].
Definition MODEL_BIN : EnvVarRequirement :=
  mkEnvVarRequirement "model.bin requirement" "MODEL_BIN" [PopsKey "STALE" "/project/model.bin"].

(** A project directory whose local state records two services. *)
Definition redis_state : RunState :=
  mkRunState (Some [["redis-cli"; "shutdown"]; ["rm"; "redis.pid"]]) {["port" := "6379"]}.
Definition db_state : RunState := mkRunState None {["port" := "5432"]}.
Definition recorded_disk : Disk :=
  {["/project" := mkContents ∅ {["redis" := redis_state; "db" := db_state]}]}.

(** A host on which every command starts and exits with status 1; the
    host state counts the processes started. *)
Definition always_fails (command : Command) (started : nat) : PyResult Z * nat :=
  (Return 1%Z, S started).
Definition stub_repr (command : Command) : string :=
  "[" +:+ String.concat ", " (map (λ arg, "'" +:+ arg +:+ "'") command) +:+ "]".

(** The download provider on stubs: a superclass that does nothing and
    Unix paths. *)
Definition base_provide (requirement : Download.DownloadRequirement)
    (context : Download.ProvideContext) : PyResult unit * Download.ProvideContext :=
  (Return tt, context).
Definition base_set_config_values (requirement : Download.DownloadRequirement)
    (environ : Environ) (ls : LocalStateFile) (values : gmap string string)
    : Environ * LocalStateFile :=
  (environ, ls).
Definition unix_join (a b : string) : string := a +:+ "/" +:+ b.
Definition unix_abspath (path : string) : string := path.
Definition server_answers (code : Z) (url filename : string) (hash : option string)
    : Download.DownloadOutcome :=
  Download.Response code.

Definition data_csv : Download.DownloadRequirement :=
  Download.mkDownloadRequirement "DATA_CSV" "http://example.com/data.csv" "data.csv" None.
Definition download_analysis : Download._DownloadProviderAnalysis :=
  Download.mkAnalysis {["source" := "download"]} [] ["DATA_CSV"] None.
Definition context_in (environ : Environ) : Download.ProvideContext :=
  Download.mkProvideContext environ Download.PROVIDE_MODE_PRODUCTION download_analysis [] [].

End Scenario.

(** ** More stubs *)

Module Stubs.
Import LocalState Prepare Scenario.
Import Stdlib.Strings.Ascii.

(** A host on which no command can be started. *)
Definition never_starts (command : Command) (started : nat) : PyResult Z * nat :=
  (Raise (OSError "[Errno 2] No such file or directory"), started).

Definition BROKEN : EnvVarRequirement :=
  mkEnvVarRequirement "broken requirement" "BROKEN" [RaisesError "provider crashed"].

(** The stub provider with a [read_config] that asserts, as the one of
    the download provider does, that the stored source is not
    ['default']; and a project directory whose local state stores it. *)
Definition asserting_provider : Unguarded.Provider EnvVarRequirement StubProvider unit := {|
  Unguarded.read_config _ ls _ :=
    if decide (values (contents ls) !! "source" = Some "default")
    then Raise Builtins.AssertionError else Return tt;
  Unguarded.provide := stub_provide
|}.
Definition default_source_disk : Disk :=
  {["/project" := mkContents {["source" := "default"]} ∅]}.

(** A superclass whose configuration has no source chosen yet, and a
    file system that holds [/project/data.csv] only. *)
Definition base_read_config (requirement : Download.DownloadRequirement)
    (environ : Environ) (ls : LocalStateFile) : gmap string string :=
  {["source" := "unset"]}.
Definition base_analyze (requirement : Download.DownloadRequirement)
    (environ : Environ) (ls : LocalStateFile) : DownloadMethods.ProviderAnalysis :=
  DownloadMethods.mkProviderAnalysis {["source" := "download"]} [] ["DATA_CSV"].
Definition only_data_csv (path : string) : bool :=
  bool_decide (path = "/project/data.csv").
Definition server_is_down (url filename : string) (hash : option string)
    : Download.DownloadOutcome :=
  Download.DownloadRaises "connection refused".

(** [posixpath.split], [join], [dirname] and [isabs] on plain strings,
    to run the unpacking on. *)
Fixpoint cut_at_last_slash (p : string) : string * string :=
  match p with
  | EmptyString => ("", "")
  | String c rest =>
      let '(head, tail) := cut_at_last_slash rest in
      if decide (head = "") then
        if decide (c = "/"%char) then ("/", rest) else ("", String c rest)
      else (String c head, tail)
  end.

Fixpoint rstrip_slashes (p : string) : string :=
  match p with
  | EmptyString => ""
  | String c rest =>
      let rest := rstrip_slashes rest in
      if decide (rest = "" ∧ c = "/"%char) then "" else String c rest
  end.

Definition posix_split (p : string) : string * string :=
  let '(head, tail) := cut_at_last_slash p in
  (if decide (rstrip_slashes head = "") then head else rstrip_slashes head, tail).

Definition posix_isabs (p : string) : bool := Builtins.startswith p "/".

Definition posix_join (a b : string) : string :=
  if posix_isabs b then b
  else if decide (a = "") then b
  else if decide (rstrip_slashes a = a) then a +:+ "/" +:+ b
  else a +:+ b.

Definition posix_dirname (p : string) : string := (posix_split p).1.

(** A host whose paths are already canonical, with current directory
    [/cwd] and nothing in it. *)
Definition same_path (p : string) : string := p.
Definition nothing_exists (p : string) : bool := false.

Definition archive_names (archive_path : string) : list string :=
  ["proj"; "proj/project.yml"; "proj/data/x.csv"].

End Stubs.

(** * Properties of the prepare engine *)

Module PrepareFacts.
Import LocalState Prepare.

Section Facts.
Context {R P Config : Type}.
Context `{!Requirement R P, !Provider R P Config, !ConfigureUI R P}.

Implicit Types (st : @Engine R P) (plan : list (P * R)) (reqs : list R).

(** ** The commit loop *)

Lemma commit_step_lookup (env : Environ) (key value k : string) :
  (if decide (env !! key = None ∨ env !! key ≠ Some value)
   then <[key := value]> env else env) !! k
  = if decide (k = key) then Some value else env !! k.
Proof.
  destruct (decide (k = key)) as [->|Hne].
  - case_decide as Hc.
    + by rewrite lookup_insert_eq.
    + destruct (env !! key) as [v|] eqn:E.
      * destruct (decide (v = value)) as [->|]; [done|].
        exfalso. apply Hc. right. congruence.
      * exfalso. apply Hc. by left.
  - case_decide; [by rewrite lookup_insert_ne|done].
Qed.

Lemma commit_fold_lookup (l : list (string * string)) (env : Environ) (k : string) :
  NoDup l.*1 →
  foldl (λ environ '(key, value),
           if decide (environ !! key = None ∨ environ !! key ≠ Some value)
           then <[key := value]> environ
           else environ) env l !! k
  = match (list_to_map l : Environ) !! k with
    | Some v => Some v
    | None => env !! k
    end.
Proof.
  revert env. induction l as [|[key value] l IH]; intros env Hnd; [done|].
  inversion Hnd as [|? ? Hnotin Hnd']; subst.
  cbn [foldl]. rewrite IH by done. cbn [list_to_map foldr uncurry].
  rewrite commit_step_lookup.
  destruct (decide (k = key)) as [->|Hne].
  - rewrite lookup_insert_eq.
    by rewrite (not_elem_of_list_to_map_1 (M:=gmap string) l key Hnotin).
  - rewrite lookup_insert_ne by done. done.
Qed.

Lemma commit_lookup (copy env : Environ) (k : string) :
  commit copy env !! k = match copy !! k with Some v => Some v | None => env !! k end.
Proof.
  unfold commit. rewrite commit_fold_lookup by apply NoDup_fst_map_to_list.
  by rewrite list_to_map_to_list.
Qed.

Lemma commit_union (copy env : Environ) : commit copy env = copy ∪ env.
Proof.
  apply map_eq; intros k. rewrite commit_lookup, lookup_union.
  destruct (copy !! k), (env !! k); done.
Qed.

(** ** The plan and the loop over it *)



Lemma run_entry_calls entry st res st' :
  run_entry entry st = (res, st') →
  calls st' = calls st ++ entry_calls entry (environ_copy st).
Proof.
  destruct entry as [p r]. unfold run_entry, entry_calls. cbn.
  destruct (why_not_provided r (environ_copy st)) as [why|].
  - destruct (provide p r _) as [[u|e] ctx]; cbn.
    + destruct (errors ctx); intros [= <- <-]; cbn; by rewrite <- !app_assoc.
    + intros [= <- <-]; cbn; by rewrite <- !app_assoc.
  - by intros [= <- <-].
Qed.

Lemma run_entry_satisfied p r st :
  why_not_provided r (environ_copy st) = None →
  run_entry (p, r) st
  = (Return tt, record_call (CallWhyNotProvided r (environ_copy st)) st).
Proof. intros Hsat. unfold run_entry. cbn. by rewrite Hsat. Qed.

Lemma run_plan_app plan1 plan2 st :
  run_plan (plan1 ++ plan2) st
  = match run_plan plan1 st with
    | (Return _, st1) => run_plan plan2 st1
    | (Raise e, st1) => (Raise e, st1)
    end.
Proof.
  revert st. induction plan1 as [|entry plan1 IH]; intros st; [done|].
  cbn [app run_plan]. destruct (run_entry entry st) as [[u|e] st1]; [apply IH|done].
Qed.

(** The calls of a run of the plan, entry by entry: [envs] lists the
    working environment found at each entry that was reached. *)
Lemma run_plan_calls plan st res st' :
  run_plan plan st = (res, st') →
  ∃ envs : list Environ,
    length envs ≤ length plan ∧
    calls st' = calls st ++ concat (zip_with entry_calls plan envs) ∧
    (returns res → length envs = length plan).
Proof.
  revert st. induction plan as [|entry plan IH]; intros st Hrun.
  - injection Hrun as <- <-. exists []. cbn. by rewrite app_nil_r.
  - cbn [run_plan] in Hrun.
    destruct (run_entry entry st) as [[u|e] st1] eqn:Hentry.
    + apply run_entry_calls in Hentry.
      destruct (IH _ Hrun) as (envs & Hlen & Hcalls & Hall).
      exists (environ_copy st :: envs). cbn. split; [lia|]. split.
      * by rewrite Hcalls, Hentry, <- app_assoc.
      * intros Hret. by rewrite Hall.
    + injection Hrun as <- <-. apply run_entry_calls in Hentry.
      exists [environ_copy st]. cbn. split; [lia|]. split; [|done].
      destruct plan; cbn; by rewrite app_nil_r.
Qed.

(** A plan whose requirements are all met changes nothing and calls no
    provider. *)
Lemma run_plan_all_satisfied plan st :
  (∀ entry, entry ∈ plan → why_not_provided entry.2 (environ_copy st) = None) →
  ∃ cs, Forall (λ c, is_why_not_provided c = true) cs ∧
    run_plan plan st
    = (Return tt, mkEngine (environ_copy st) (local_state st) (stdout st) (stderr st)
                           (calls st ++ cs)).
Proof.
  revert st. induction plan as [|[p r] plan IH]; intros st Hsat.
  - exists []. split; [done|]. cbn. rewrite app_nil_r. by destruct st.
  - cbn [run_plan]. rewrite run_entry_satisfied by (apply (Hsat (p, r)); left).
    destruct (IH (record_call (CallWhyNotProvided r (environ_copy st)) st)) as (cs & Hcs & ->).
    { intros entry Hin. cbn. apply Hsat. by right. }
    exists (CallWhyNotProvided r (environ_copy st) :: cs). split.
    + by constructor.
    + cbn. by rewrite <- app_assoc.
Qed.

(** ** The validation loop *)

Lemma unmet_cons r reqs env :
  unmet (r :: reqs) env
  = match why_not_provided r env with
    | Some why_not => (title r, why_not) :: unmet reqs env
    | None => unmet reqs env
    end.
Proof. unfold unmet. cbn [omap list_omap]. by destruct (why_not_provided r env). Qed.

Lemma validate_spec reqs failed st :
  validate reqs failed st
  = (failed || bool_decide (unmet reqs (environ_copy st) ≠ []),
     mkEngine (environ_copy st) (local_state st) (stdout st)
              (stderr st ++ report_lines (unmet reqs (environ_copy st)))
              (calls st ++ map (λ r, CallWhyNotProvided r (environ_copy st)) reqs)).
Proof.
  revert failed st. induction reqs as [|r reqs IH]; intros failed st.
  - cbn. rewrite orb_false_r, !app_nil_r. by destruct st.
  - cbn [validate]. rewrite unmet_cons. cbn [map].
    change (environ_copy (record_call (CallWhyNotProvided r (environ_copy st)) st))
      with (environ_copy st).
    destruct (why_not_provided r (environ_copy st)) as [why|] eqn:Hwhy;
      rewrite IH; cbn.
    + rewrite orb_true_r. f_equal. f_equal; by rewrite <- app_assoc.
    + f_equal. f_equal; by rewrite <- app_assoc.
Qed.

Lemma unmet_nil reqs env :
  unmet reqs env = [] ↔ ∀ r, r ∈ reqs → why_not_provided r env = None.
Proof.
  unfold unmet. induction reqs as [|r reqs IH]; cbn.
  - split; [intros _ r Hin; by apply elem_of_nil in Hin|done].
  - destruct (why_not_provided r env) as [why|] eqn:Hwhy; cbn.
    + split; [done|]. intros Hall. specialize (Hall r (list_elem_of_here _ _)). congruence.
    + rewrite IH. split.
      * intros Hall r' [->|Hin]%elem_of_cons; auto.
      * intros Hall r' Hin. apply Hall. by right.
Qed.

Lemma elem_of_unmet reqs env t why :
  (t, why) ∈ unmet reqs env ↔ ∃ r, r ∈ reqs ∧ title r = t ∧ why_not_provided r env = Some why.
Proof.
  unfold unmet. rewrite list_elem_of_omap. split.
  - intros (r & Hin & Heq). exists r. split; [done|].
    destruct (why_not_provided r env); cbn in Heq; [|done]. by injection Heq as <- <-.
  - intros (r & Hin & <- & Hwhy). exists r. split; [done|]. by rewrite Hwhy.
Qed.

(** ** The four ways a call of [prepare] can go *)

Lemma ui_mode_cases (ui_mode : string) :
  ui_mode ∉ _all_ui_modes ∨ ui_mode = UI_MODE_TEXT ∨
  ui_mode = UI_MODE_BROWSER ∨ ui_mode = UI_MODE_NOT_INTERACTIVE.
Proof.
  destruct (decide (ui_mode ∈ _all_ui_modes)) as [Hin|]; [|by left].
  right. unfold _all_ui_modes in Hin.
  rewrite !elem_of_cons, elem_of_nil in Hin. tauto.
Qed.

Lemma text_mode_recognized : UI_MODE_TEXT ∈ _all_ui_modes.
Proof. unfold _all_ui_modes. rewrite !elem_of_cons. tauto. Qed.

Lemma interactive_mode_recognized (ui_mode : string) :
  ui_mode ∈ [UI_MODE_BROWSER; UI_MODE_NOT_INTERACTIVE] → ui_mode ∈ _all_ui_modes.
Proof. unfold _all_ui_modes. rewrite !elem_of_cons. tauto. Qed.

Lemma prepare_outcome (project : Project R) ui_mode (environ : Environ) (disk : Disk) :
  let out := prepare project ui_mode environ disk in
  let reqs := requirements project in
  let plan := build_plan (resolve_providers mkProviderRegistry reqs) in
  ((ui_mode ∉ _all_ui_modes) ∧
   out = mkPrepareOutcome (Raise (ValueError ("invalid UI mode " +:+ ui_mode))) environ None)
  ∨ (ui_mode = UI_MODE_TEXT ∧ ∃ ls,
       out = mkPrepareOutcome (Raise (UnboundLocalError "ui")) environ
                              (Some (mkEngine environ ls [] [] [])))
  ∨ (ui_mode ∈ [UI_MODE_BROWSER; UI_MODE_NOT_INTERACTIVE] ∧ ∃ ls e st1,
       run_plan plan (mkEngine environ ls [] [] []) = (Raise e, st1) ∧
       out = mkPrepareOutcome (Raise e) environ (Some st1))
  ∨ (ui_mode ∈ [UI_MODE_BROWSER; UI_MODE_NOT_INTERACTIVE] ∧ ∃ ls st1,
       run_plan plan (mkEngine environ ls [] [] []) = (Return tt, st1) ∧
       let env := environ_copy st1 in
       let st2 := mkEngine env (local_state st1) (stdout st1)
                    (stderr st1 ++ report_lines (unmet reqs env))
                    (calls st1 ++ map (λ r, CallWhyNotProvided r env) reqs) in
       (unmet reqs env = [] ∧
        out = mkPrepareOutcome (Return true) (commit env environ) (Some st2)
        ∨ unmet reqs env ≠ [] ∧
          out = mkPrepareOutcome (Return false) environ (Some st2))).
Proof.
  intros out reqs plan. subst out. unfold prepare.
  destruct (ui_mode_cases ui_mode) as [Hbad|Hmode].
  { left. by rewrite decide_True by done. }
  right.
  assert (¬ (ui_mode ∉ _all_ui_modes)) as Hgood.
  { intros Hn. apply Hn. unfold _all_ui_modes. rewrite !elem_of_cons. tauto. }
  rewrite decide_False by done.
  destruct Hmode as [->|Hmode].
  { left. split; [done|]. eexists. reflexivity. }
  right.
  assert (ui_mode ∈ [UI_MODE_BROWSER; UI_MODE_NOT_INTERACTIVE]) as Hin
    by (rewrite !elem_of_cons; tauto).
  assert (∃ ls, _configure_prepare ui_mode
             (mkConfigurePrepareContext
                (load_for_directory disk (project_directory_path project))
                (resolve_providers mkProviderRegistry (requirements project)))
           = Return ls) as [ls ->].
  { destruct Hmode as [->| ->]; eexists; reflexivity. }
  fold reqs. fold plan.
  destruct (run_plan plan (mkEngine environ ls [] [] [])) as [[[]|e] st1] eqn:Hrun.
  - right. split; [done|]. exists ls, st1. split; [done|].
    rewrite validate_spec. cbn [orb]. cbv zeta.
    case_bool_decide as Hu.
    + right. done.
    + left. split; [|done]. by destruct (unmet reqs (environ_copy st1)).
  - left. split; [done|]. by exists ls, e, st1.
Qed.

(** ** Claims about [prepare] *)

(** C1. The caller's environment is changed all or nothing. A call that
    returns [True] found every requirement met in the working copy and
    has written every key of the working copy into the caller's
    environment; a call that returns [False] found a requirement unmet
    and left the caller's environment as it was; so did a call that
    raised. *)
Theorem prepare_all_or_nothing (project : Project R) ui_mode (environ : Environ) disk :
  let out := prepare project ui_mode environ disk in
  match result out with
  | Return true =>
      ∃ st, working out = Some st ∧
        (∀ r, r ∈ requirements project → why_not_provided r (environ_copy st) = None) ∧
        caller_environ out = environ_copy st ∪ environ ∧
        (∀ key, caller_environ out !! key
                = match environ_copy st !! key with
                  | Some value => Some value
                  | None => environ !! key
                  end)
  | Return false =>
      caller_environ out = environ ∧
      ∃ st r why_not, working out = Some st ∧ r ∈ requirements project ∧
        why_not_provided r (environ_copy st) = Some why_not
  | Raise _ => caller_environ out = environ
  end.
Proof.
  intros out. subst out.
  destruct (prepare_outcome project ui_mode environ disk)
    as [[_ ->]|[[_ [ls ->]]|[[_ (ls & e & st1 & _ & ->)]|[_ (ls & st1 & _ & Hout)]]]];
    try done.
  cbv zeta in Hout. destruct Hout as [[Hnone ->]|[Hsome ->]]; cbn.
  - eexists. split; [done|]. cbn. split; [by apply unmet_nil|].
    split; [apply commit_union|]. intros key. apply commit_lookup.
  - split; [done|].
    destruct (unmet (requirements project) (environ_copy st1)) as [|[t why] u] eqn:Hu; [done|].
    assert ((t, why) ∈ unmet (requirements project) (environ_copy st1)) as Hin
      by (rewrite Hu; left).
    apply elem_of_unmet in Hin as (r & Hr & _ & Hwhy).
    eexists _, r, why. done.
Qed.

(** C6, at the failing input. With the recognized mode ["text"] the
    configure step binds no user interface and the call ends in an
    [UnboundLocalError], whatever the project and the environment. *)
Theorem prepare_text_mode_raises (project : Project R) (environ : Environ) disk :
  result (prepare project UI_MODE_TEXT environ disk) = Raise (UnboundLocalError "ui").
Proof. reflexivity. Qed.

(** X1. The other half of C6 holds: a mode outside the three recognized
    ones, and no other, is refused before the engine has created
    anything, with a [ValueError] and the environment untouched. *)
Lemma prepare_rejects_unknown_mode (project : Project R) ui_mode (environ : Environ) disk :
  let out := prepare project ui_mode environ disk in
  (ui_mode ∉ _all_ui_modes ↔ working out = None) ∧
  (ui_mode ∉ _all_ui_modes →
   result out = Raise (ValueError ("invalid UI mode " +:+ ui_mode)) ∧
   caller_environ out = environ).
Proof.
  intros out. subst out.
  destruct (prepare_outcome project ui_mode environ disk)
    as [[Hbad ->]|[[-> [ls ->]]|[[Hin (ls & e & st1 & _ & ->)]|[Hin (ls & st1 & _ & Hout)]]]].
  - done.
  - pose proof text_mode_recognized.
    split; [split; [|done]|]; intros Hn; by destruct Hn.
  - apply interactive_mode_recognized in Hin.
    split; [split; [|done]|]; intros Hn; by destruct Hn.
  - apply interactive_mode_recognized in Hin. cbv zeta in Hout.
    destruct Hout as [[_ ->]|[_ ->]];
      (split; [split; [|done]|]; intros Hn; by destruct Hn).
Qed.

(** C10. The commit never deletes: a key of the caller's environment is
    still there after the call, and when the working copy has lost the
    key during the run the caller's environment keeps its old value. *)
Theorem commit_never_deletes (project : Project R) ui_mode (environ : Environ) disk
    (key value : string) :
  environ !! key = Some value →
  let out := prepare project ui_mode environ disk in
  is_Some (caller_environ out !! key) ∧
  (∀ st, working out = Some st → environ_copy st !! key = None →
         caller_environ out !! key = Some value).
Proof.
  intros Hkey out. subst out.
  destruct (prepare_outcome project ui_mode environ disk)
    as [[_ ->]|[[_ [ls ->]]|[[_ (ls & e & st1 & _ & ->)]|[_ (ls & st1 & _ & Hout)]]]];
    cbn; try (split; [by eexists|done]).
  cbv zeta in Hout. destruct Hout as [[_ ->]|[_ ->]]; cbn; [|split; [by eexists|done]].
  split.
  - rewrite commit_lookup. destruct (environ_copy st1 !! key); [by eexists|by rewrite Hkey].
  - intros st [= <-]. cbn. intros Hgone. by rewrite commit_lookup, Hgone.
Qed.

Lemma report_lines_unmet reqs env :
  report_lines (unmet reqs env)
  = flat_map (λ r, match why_not_provided r env with
                   | Some why_not =>
                       ["missing requirement to run this project: " +:+ title r;
                        "  " +:+ why_not]
                   | None => []
                   end) reqs.
Proof.
  induction reqs as [|r reqs IH]; [done|].
  rewrite unmet_cons. cbn [flat_map].
  destruct (why_not_provided r env); [|done].
  cbn. by rewrite <- IH.
Qed.

(** C2. A call that returns has first run the whole plan and then asked
    [why_not_provided] of every requirement of the project against the
    working environment; it returns [False] exactly when some requirement
    gave a reason, and it has printed, for each such requirement in turn,
    its title and that reason. *)
Theorem prepare_validates_every_requirement (project : Project R) ui_mode
    (environ : Environ) disk (b : bool) :
  let out := prepare project ui_mode environ disk in
  let plan := build_plan (resolve_providers mkProviderRegistry (requirements project)) in
  result out = Return b →
  ∃ st envs,
    working out = Some st ∧
    length envs = length plan ∧
    calls st = concat (zip_with entry_calls plan envs)
               ++ map (λ r, CallWhyNotProvided r (environ_copy st)) (requirements project) ∧
    (b = false ↔ ∃ r why_not, r ∈ requirements project ∧
                   why_not_provided r (environ_copy st) = Some why_not) ∧
    ∃ printed,
      stderr st
      = printed ++
        flat_map (λ r, match why_not_provided r (environ_copy st) with
                       | Some why_not =>
                           ["missing requirement to run this project: " +:+ title r;
                            "  " +:+ why_not]
                       | None => []
                       end) (requirements project).
Proof.
  intros out plan. subst out.
  destruct (prepare_outcome project ui_mode environ disk)
    as [[_ ->]|[[_ [ls ->]]|[[_ (ls & e & st1 & _ & ->)]|[_ (ls & st1 & Hrun & Hout)]]]];
    try done.
  fold plan in Hrun. cbv zeta in Hout.
  destruct (run_plan_calls _ _ _ _ Hrun) as (envs & _ & Hcalls & Hall).
  cbn in Hcalls. specialize (Hall I).
  assert (∀ u : list (string * string), u = unmet (requirements project) (environ_copy st1) →
          (u ≠ [] ↔ ∃ r why_not, r ∈ requirements project ∧
                      why_not_provided r (environ_copy st1) = Some why_not)) as Hiff.
  { intros u ->. split.
    - intros Hne.
      destruct (unmet (requirements project) (environ_copy st1)) as [|[t why] u] eqn:Hu; [done|].
      assert ((t, why) ∈ unmet (requirements project) (environ_copy st1)) as Hin
        by (rewrite Hu; left).
      apply elem_of_unmet in Hin as (r & Hr & _ & Hwhy). by exists r, why.
    - intros (r & why & Hr & Hwhy) Hnil.
      rewrite unmet_nil in Hnil. specialize (Hnil r Hr). congruence. }
  specialize (Hiff _ eq_refl).
  destruct Hout as [[Hnone ->]|[Hsome ->]]; cbn; intros [= <-];
    eexists _, envs; (split; [done|]); cbn; (split; [done|]);
    (split; [by rewrite Hcalls|]);
    (split; [|eexists; by rewrite <- report_lines_unmet]).
  - split; [done|]. intros Hex. apply Hiff in Hex. done.
  - split; [|done]. intros _. by apply Hiff.
Qed.

(** ** The order of the calls *)

Lemma provider_calls_app (cs1 cs2 : list (@Call R P)) :
  provider_calls (cs1 ++ cs2) = provider_calls cs1 ++ provider_calls cs2.
Proof. apply filter_app. Qed.

Lemma provider_calls_checks (cs : list (@Call R P)) :
  Forall (λ c, is_why_not_provided c = true) cs → provider_calls cs = [].
Proof.
  induction 1 as [|c cs Hc _ IH]; [done|].
  unfold provider_calls. rewrite filter_cons, decide_False by congruence. apply IH.
Qed.

Lemma validation_calls_are_checks reqs (env : Environ) :
  Forall (λ c : @Call R P, is_why_not_provided c = true)
         (map (λ r, CallWhyNotProvided r env) reqs).
Proof. apply Forall_forall. intros c (r & -> & _)%list_elem_of_fmap. done. Qed.

(** ** What a call prints *)

Lemma run_entry_provided p r st why_not context :
  why_not_provided r (environ_copy st) = Some why_not →
  provide p r (new_ProvideContext (environ_copy st) (local_state st)
                                  (read_config p (local_state st) r))
  = (Return tt, context) →
  run_entry (p, r) st
  = (Return tt,
     mkEngine (environ context) (local_state_file context)
              (stdout st ++ printed_logs context) (stderr st ++ errors context)
              (calls st ++ [CallWhyNotProvided r (environ_copy st);
                            CallReadConfig p r; CallProvide p r])).
Proof.
  intros Hwhy Hprovide. unfold run_entry. cbn. rewrite Hwhy, Hprovide. cbn.
  f_equal. unfold printed_logs.
  destruct (errors context);
    unfold print_stderr, print_stdout, sync_context, record_call; cbn;
    by rewrite <- !app_assoc, ?app_nil_r.
Qed.

Lemma run_entry_raised p r st why_not e context :
  why_not_provided r (environ_copy st) = Some why_not →
  provide p r (new_ProvideContext (environ_copy st) (local_state st)
                                  (read_config p (local_state st) r))
  = (Raise e, context) →
  run_entry (p, r) st
  = (Raise e,
     mkEngine (environ context) (local_state_file context) (stdout st) (stderr st)
              (calls st ++ [CallWhyNotProvided r (environ_copy st);
                            CallReadConfig p r; CallProvide p r])).
Proof.
  intros Hwhy Hprovide. unfold run_entry. cbn. rewrite Hwhy, Hprovide. cbn.
  f_equal. unfold sync_context, record_call; cbn. by rewrite <- !app_assoc.
Qed.

Lemma provider_calls_entry (cs : list (@Call R P)) p r env :
  provider_calls (cs ++ [CallWhyNotProvided r env; CallReadConfig p r; CallProvide p r])
  = provider_calls cs ++ [CallReadConfig p r; CallProvide p r].
Proof. by rewrite provider_calls_app. Qed.

Lemma run_plan_prints plan st res st' :
  run_plan plan st = (res, st') →
  ∃ (provided : list (P * R * ProvideContext Config)) raised,
    map fst provided `sublist_of` plan ∧
    Forall provided_by provided ∧
    stdout st' = stdout st ++ flat_map (λ item, printed_logs item.2) provided ∧
    stderr st' = stderr st ++ flat_map (λ item, errors item.2) provided ∧
    provider_calls (calls st')
    = provider_calls (calls st) ++ provide_calls provided ++ raised ∧
    match res with
    | Return _ => raised = []
    | Raise _ => ∃ p r, (p, r) ∈ plan ∧ raised = [CallReadConfig p r; CallProvide p r]
    end.
Proof.
  revert st. induction plan as [|[p r] plan IH]; intros st Hrun.
  - injection Hrun as <- <-. exists [], []. cbn. by rewrite !app_nil_r.
  - cbn [run_plan] in Hrun.
    destruct (why_not_provided r (environ_copy st)) as [why_not|] eqn:Hwhy.
    + destruct (provide p r (new_ProvideContext (environ_copy st) (local_state st)
                               (read_config p (local_state st) r)))
        as [[[]|e] context] eqn:Hprovide.
      * rewrite (run_entry_provided _ _ _ _ _ Hwhy Hprovide) in Hrun.
        destruct (IH _ Hrun)
          as (provided & raised & Hsub & Hall & Hout & Herr & Hcalls & Hres).
        cbn [stdout stderr calls] in Hout, Herr, Hcalls.
        rewrite provider_calls_entry in Hcalls.
        exists ((p, r, context) :: provided), raised.
        split; [by apply sublist_skip|].
        split; [constructor; [by exists (environ_copy st), (local_state st), why_not|done]|].
        rewrite Hout, Herr, Hcalls. unfold provide_calls. cbn [flat_map fst snd].
        rewrite <- !app_assoc. do 3 (split; [done|]).
        destruct res; [done|].
        destruct Hres as (p' & r' & Hin & ->). exists p', r'. split; [by right|done].
      * rewrite (run_entry_raised _ _ _ _ _ _ Hwhy Hprovide) in Hrun.
        injection Hrun as <- <-. exists [], [CallReadConfig p r; CallProvide p r].
        split; [apply sublist_nil_l|]. split; [done|].
        cbn [stdout stderr calls flat_map provide_calls].
        rewrite !app_nil_r, provider_calls_entry. do 3 (split; [done|]).
        exists p, r. split; [by left|done].
    + rewrite (run_entry_satisfied _ _ _ Hwhy) in Hrun.
      destruct (IH _ Hrun)
        as (provided & raised & Hsub & Hall & Hout & Herr & Hcalls & Hres).
      exists provided, raised. split; [by apply sublist_cons|]. split; [done|].
      cbn [stdout stderr calls record_call] in Hout, Herr, Hcalls.
      rewrite provider_calls_app in Hcalls. cbn in Hcalls.
      rewrite app_nil_r in Hcalls.
      do 3 (split; [done|]).
      destruct res; [done|].
      destruct Hres as (p' & r' & Hin & ->). exists p', r'. split; [by right|done].
Qed.

Lemma prepare_prints (project : Project R) ui_mode (environ : Environ) disk st :
  let out := prepare project ui_mode environ disk in
  let plan := build_plan (resolve_providers mkProviderRegistry (requirements project)) in
  working out = Some st →
  ∃ (provided : list (P * R * ProvideContext Config)) raised,
    map fst provided `sublist_of` plan ∧
    Forall provided_by provided ∧
    stdout st = flat_map (λ item, printed_logs item.2) provided ∧
    provider_calls (calls st) = provide_calls provided ++ raised ∧
    match result out with
    | Return _ =>
        raised = [] ∧
        stderr st = flat_map (λ item, errors item.2) provided
                    ++ report_lines (unmet (requirements project) (environ_copy st))
    | Raise _ =>
        stderr st = flat_map (λ item, errors item.2) provided ∧
        (raised = [] ∨ ∃ p r, (p, r) ∈ plan ∧ raised = [CallReadConfig p r; CallProvide p r])
    end.
Proof.
  intros out plan Hst. subst out plan.
  destruct (prepare_outcome project ui_mode environ disk)
    as [[_ Hout]|[[_ [ls Hout]]|[[_ (ls & e & st1 & Hrun & Hout)]|[_ (ls & st1 & Hrun & Hout)]]]].
  - rewrite Hout in Hst. done.
  - rewrite Hout in Hst |- *. injection Hst as <-. exists [], []. cbn.
    split; [apply sublist_nil_l|]. by repeat split; try left.
  - rewrite Hout in Hst |- *. injection Hst as <-.
    destruct (run_plan_prints _ _ _ _ Hrun)
      as (provided & raised & Hsub & Hall & Hstdout & Hstderr & Hcalls & Hres).
    exists provided, raised. cbn in Hstdout, Hstderr, Hcalls |- *.
    do 4 (split; [done|]). split; [done|]. by right.
  - destruct (run_plan_prints _ _ _ _ Hrun)
      as (provided & raised & Hsub & Hall & Hstdout & Hstderr & Hcalls & ->).
    cbn in Hstdout, Hstderr, Hcalls. rewrite app_nil_r in Hcalls. cbv zeta in Hout.
    exists provided, []. rewrite app_nil_r.
    destruct Hout as [[_ Hout]|[_ Hout]]; rewrite Hout in Hst |- *; injection Hst as <-;
      cbn [result stdout stderr calls environ_copy];
      rewrite provider_calls_app,
        (provider_calls_checks _ (validation_calls_are_checks _ _)), app_nil_r;
      rewrite Hstdout, Hstderr, Hcalls; done.
Qed.

Lemma printed_logs_need_errors (provided : list (P * R * ProvideContext Config)) :
  flat_map (λ item, printed_logs item.2) provided ≠ [] →
  flat_map (λ item, errors item.2) provided ≠ [].
Proof.
  induction provided as [|item provided IH]; [done|]. cbn [flat_map].
  unfold printed_logs at 1. destruct (errors item.2); [|done]. apply IH.
Qed.

(** C7, as the code has it. What a call hands back is the flag alone:
    [True] exactly when no requirement is unmet. The rest is printed.
    For the providers whose [provide] was called, in the order of the
    plan, the errors that each has left in its context go to standard
    error, and the logs of those that have left an error go to standard
    output; the logs of a provider without error are not printed. The
    unmet requirements, with title and reason, are the last lines on
    standard error. *)
Theorem prepare_returns_only_a_flag (project : Project R) ui_mode
    (environ : Environ) disk (b : bool) :
  let out := prepare project ui_mode environ disk in
  let plan := build_plan (resolve_providers mkProviderRegistry (requirements project)) in
  result out = Return b →
  ∃ st (provided : list (P * R * ProvideContext Config)),
    working out = Some st ∧
    b = bool_decide (unmet (requirements project) (environ_copy st) = []) ∧
    map fst provided `sublist_of` plan ∧
    Forall provided_by provided ∧
    provider_calls (calls st) = provide_calls provided ∧
    stdout st = flat_map (λ item, printed_logs item.2) provided ∧
    stderr st = flat_map (λ item, errors item.2) provided
                ++ report_lines (unmet (requirements project) (environ_copy st)).
Proof.
  intros out plan Hresult.
  assert (∃ st, working out = Some st ∧
            b = bool_decide (unmet (requirements project) (environ_copy st) = []))
    as (st & Hst & Hflag).
  { subst out. revert Hresult.
    destruct (prepare_outcome project ui_mode environ disk)
      as [[_ ->]|[[_ [ls ->]]|[[_ (ls & e & st1 & _ & ->)]|[_ (ls & st1 & Hrun & Hout)]]]];
      try done.
    cbv zeta in Hout.
    destruct Hout as [[Hnone ->]|[Hsome ->]]; cbn; intros [= <-];
      eexists; (split; [done|]); cbn.
    - by rewrite bool_decide_eq_true_2.
    - by rewrite bool_decide_eq_false_2. }
  destruct (prepare_prints project ui_mode environ disk st Hst)
    as (provided & raised & Hsub & Hall & Hstdout & Hcalls & Hprinted).
  fold out in Hprinted. rewrite Hresult in Hprinted. destruct Hprinted as [-> Hstderr].
  rewrite app_nil_r in Hcalls. by exists st, provided.
Qed.


Lemma plan_order_is_kept_blocks (project : Project R) ui_mode (environ : Environ) disk st :
  working (prepare project ui_mode environ disk) = Some st →
  ∃ (envs : list Environ) tail,
    calls st = concat (zip_with entry_calls
                         (build_plan (resolve_providers mkProviderRegistry
                                        (requirements project))) envs) ++ tail ∧
    Forall (λ c, is_why_not_provided c = true) tail.
Proof.
  intros Hst.
  destruct (prepare_outcome project ui_mode environ disk)
    as [[_ Hout]|[[_ [ls Hout]]|[[_ (ls & e & st1 & Hrun & Hout)]|[_ (ls & st1 & Hrun & Hout)]]]].
  - rewrite Hout in Hst. done.
  - rewrite Hout in Hst. injection Hst as <-. exists [], []. cbn.
    split; [by destruct (build_plan _)|done].
  - rewrite Hout in Hst. injection Hst as <-.
    destruct (run_plan_calls _ _ _ _ Hrun) as (envs & Hlen & Hcalls & _).
    exists envs, []. split; [by rewrite app_nil_r|done].
  - destruct (run_plan_calls _ _ _ _ Hrun) as (envs & Hlen & Hcalls & _).
    cbn in Hcalls. cbv zeta in Hout.
    destruct Hout as [[_ Hout]|[_ Hout]]; rewrite Hout in Hst; injection Hst as <-;
      eexists envs, _; cbn;
      (split; [by rewrite Hcalls|apply validation_calls_are_checks]).
Qed.




Lemma blocks_start_with_a_check plan (envs : list Environ) (tail : list (@Call R P)) c :
  Forall (λ c, is_why_not_provided c = true) tail →
  head (concat (zip_with entry_calls plan envs) ++ tail) = Some c →
  is_why_not_provided c = true.
Proof.
  intros Htail. destruct plan as [|entry plan], envs as [|env envs]; cbn;
    try (destruct Htail; cbn; [done|congruence]).
  by intros [= <-].
Qed.

Lemma next_call_after_a_skip plan (envs : list Environ) (tail before after : list (@Call R P))
    r env c :
  concat (zip_with entry_calls plan envs) ++ tail
  = before ++ CallWhyNotProvided r env :: after →
  Forall (λ c, is_why_not_provided c = true) tail →
  why_not_provided r env = None →
  head after = Some c →
  is_why_not_provided c = true.
Proof.
  intros Heq Htail Hsat Hhead.
  revert envs before Heq. induction plan as [|entry plan IH]; intros envs before Heq.
  - cbn in Heq. subst tail.
    apply Forall_app in Htail as [_ Htail]. apply Forall_cons in Htail as [_ Htail].
    destruct Htail; cbn in Hhead; congruence.
  - destruct envs as [|env0 envs].
    + cbn in Heq. subst tail.
      apply Forall_app in Htail as [_ Htail]. apply Forall_cons in Htail as [_ Htail].
      destruct Htail; cbn in Hhead; congruence.
    + cbn [zip_with concat] in Heq. unfold entry_calls at 1 in Heq.
      rewrite <- app_assoc in Heq. cbn [app] in Heq.
      destruct before as [|c0 before].
      * injection Heq as -> -> Heq. rewrite Hsat in Heq. cbn in Heq. subst after.
        by eapply blocks_start_with_a_check.
      * injection Heq as _ Heq.
        destruct (why_not_provided entry.2 env0); cbn in Heq.
        -- destruct before as [|c1 [|c2 before]]; try discriminate.
           injection Heq as _ _ Heq. by eapply IH.
        -- by eapply IH.
Qed.

Lemma plan_requirements reqs (entry : P * R) :
  entry ∈ build_plan (resolve_providers mkProviderRegistry reqs) → entry.2 ∈ reqs.
Proof.
  induction reqs as [|r reqs IH]; cbn.
  - by intros ?%elem_of_nil.
  - rewrite elem_of_app. intros [(p & -> & _)%list_elem_of_fmap|Hin].
    + by left.
    + right. by apply IH.
Qed.

(** C4. When [why_not_provided] has found the requirement of an entry met
    in the working environment, the next call of the engine is the check
    of a later entry or of the validation, never [read_config] or
    [provide]; and a run that starts from an environment in which every
    requirement is met calls no provider at all and leaves the working
    copy as it found it. *)
Theorem satisfied_entries_are_skipped (project : Project R) ui_mode
    (environ : Environ) disk st :
  working (prepare project ui_mode environ disk) = Some st →
  (∀ before r env after c,
     calls st = before ++ CallWhyNotProvided r env :: after →
     why_not_provided r env = None →
     head after = Some c →
     is_why_not_provided c = true) ∧
  ((∀ r, r ∈ requirements project → why_not_provided r environ = None) →
   provider_calls (calls st) = [] ∧ environ_copy st = environ).
Proof.
  intros Hst. split.
  - destruct (plan_order_is_kept_blocks project ui_mode environ disk st Hst)
      as (envs & tail & Hcalls & Htail).
    intros before r env after c Heq. rewrite Hcalls in Heq.
    by eapply next_call_after_a_skip.
  - intros Hsat.
    destruct (prepare_outcome project ui_mode environ disk)
      as [[_ Hout]|[[_ [ls Hout]]|[[_ (ls & e & st1 & Hrun & Hout)]|[_ (ls & st1 & Hrun & Hout)]]]].
    + rewrite Hout in Hst. done.
    + rewrite Hout in Hst. by injection Hst as <-.
    + destruct (run_plan_all_satisfied
                  (build_plan (resolve_providers mkProviderRegistry (requirements project)))
                  (mkEngine environ ls [] [] [])) as (cs & _ & Hall).
      { intros entry Hin. apply Hsat. by apply plan_requirements. }
      rewrite Hall in Hrun. done.
    + destruct (run_plan_all_satisfied
                  (build_plan (resolve_providers mkProviderRegistry (requirements project)))
                  (mkEngine environ ls [] [] [])) as (cs & Hcs & Hall).
      { intros entry Hin. apply Hsat. by apply plan_requirements. }
      rewrite Hall in Hrun. injection Hrun as <-. cbn in Hout.
      assert (st = mkEngine environ ls []
                     ([] ++ report_lines (unmet (requirements project) environ))
                     (cs ++ map (λ r, CallWhyNotProvided r environ) (requirements project)))
        as ->.
      { destruct Hout as [[_ Hout]|[_ Hout]]; rewrite Hout in Hst; by injection Hst as <-. }
      split; [|done]. cbn [calls].
      rewrite provider_calls_app, (provider_calls_checks cs Hcs). cbn [app].
      apply provider_calls_checks, validation_calls_are_checks.
Qed.

(** C5. An entry whose provider returns is followed by the rest of the
    plan, whatever the provider has put in [context.errors]: the errors
    (after the logs, when there are errors) are printed and the loop goes
    on from the environment the provider left. *)
Theorem plan_continues_after_errors plan_before (p : P) (r : R) plan_after st st1
    (why_not : string) (context : ProvideContext Config) :
  run_plan plan_before st = (Return tt, st1) →
  why_not_provided r (environ_copy st1) = Some why_not →
  provide p r (new_ProvideContext (environ_copy st1) (local_state st1)
                                  (read_config p (local_state st1) r))
  = (Return tt, context) →
  run_plan (plan_before ++ (p, r) :: plan_after) st
  = run_plan plan_after
      (mkEngine (environ context) (local_state_file context)
                (stdout st1 ++ match errors context with
                               | [] => []
                               | _ :: _ => logs context
                               end)
                (stderr st1 ++ errors context)
                (calls st1 ++ [CallWhyNotProvided r (environ_copy st1);
                               CallReadConfig p r; CallProvide p r])).
Proof.
  intros Hbefore Hwhy Hprovide.
  rewrite run_plan_app, Hbefore. cbn [run_plan].
  unfold run_entry. cbn. rewrite Hwhy, Hprovide. cbn.
  f_equal.
  destruct (errors context);
    unfold print_stderr, print_stdout, sync_context, record_call; cbn;
    by rewrite <- !app_assoc, ?app_nil_r.
Qed.

End Facts.
End PrepareFacts.

(** * Properties of [unprepare] *)

Module UnprepareFacts.
Import LocalState Prepare.

Section Facts.
Context {OS : Type}.
Variable subprocess_call : Command → OS → PyResult Z * OS.
Variable repr : Command → string.

(** Every command can be started: it runs and exits with some status. *)
Hypothesis commands_start : ∀ command os, returns (subprocess_call command os).1.




End Facts.
End UnprepareFacts.

(** * Properties of the download provider *)

Module DownloadFacts.
Import LocalState Download.

Section Facts.
Variable EnvVarProvider_provide :
  DownloadRequirement → ProvideContext → PyResult unit * ProvideContext.
Variable EnvVarProvider_set_config_values_as_strings :
  DownloadRequirement → Environ → LocalStateFile → gmap string string → Environ * LocalStateFile.
Variable os_path_join : string → string → string.
Variable os_path_abspath : string → string.
Variable run_download : string → string → option string → DownloadOutcome.

Local Abbreviation provide := (provide EnvVarProvider_provide os_path_join os_path_abspath run_download).
Local Abbreviation _provide_download := (_provide_download os_path_join os_path_abspath run_download).

(** Choosing a source other than the environment removes the variable
    from the environment that was handed in. *)
Lemma set_config_values_pops_variable requirement (environ environ' : Environ) ls ls' values source :
  EnvVarProvider_set_config_values_as_strings requirement environ ls values = (environ', ls') →
  values !! "source" = Some source →
  source ≠ "environ" →
  set_config_values_as_strings EnvVarProvider_set_config_values_as_strings
    requirement environ ls values
  = (delete (env_var requirement) environ', ls').
Proof.
  intros Hsuper Hsource Hne. unfold set_config_values_as_strings.
  rewrite Hsuper, Hsource. by rewrite decide_True.
Qed.

(** What [_provide_download] does once the project directory is known. *)
Lemma _provide_download_spec requirement context :
  (existing_filename (analysis context) = None → is_Some (environ context !! "PROJECT_DIR")) →
  ∃ found context',
    _provide_download requirement context = (Return found, context') ∧
    environ context' = environ context ∧
    mode context' = mode context ∧
    match found with
    | Some name =>
        errors context' = errors context ∧
        (existing_filename (analysis context) = Some name
         ∨ existing_filename (analysis context) = None ∧
           ∃ dir, environ context !! "PROJECT_DIR" = Some dir ∧
             name = os_path_abspath (os_path_join dir (filename requirement)) ∧
             run_download (url requirement) name (hash_algorithm requirement) = Response 200)
    | None =>
        logs context' = logs context ∧
        ∃ message, errors context' = errors context ++ [message]
    end.
Proof.
  intros Hdir. unfold Download._provide_download.
  destruct (existing_filename (analysis context)) as [name|] eqn:Hexisting.
  - eexists (Some name), _. split; [done|]. cbn. eauto.
  - destruct (Hdir eq_refl) as [dir Hlookup]. unfold getitem. rewrite Hlookup.
    destruct (run_download _ _ _) as [code|message] eqn:Hrun.
    + case_decide as Hcode.
      * subst code. eexists (Some _), _. split; [done|]. cbn.
        do 3 (split; [done|]). right. split; [done|]. by exists dir.
      * eexists None, _. split; [done|]. cbn. eauto.
    + eexists None, _. split; [done|]. cbn. eauto.
Qed.

(** C9, as the code has it. Once the superclass has returned, in a mode
    other than check, with the project directory in the environment (or
    a file already found) and a source in the configuration, [provide]
    returns, with the mode and the analysis as they were. When the
    variable is set and the source is not ['download'] it leaves the
    context alone. Otherwise: a file already found becomes the value of
    the variable, with one log and no error; a download that answers 200
    sets the variable to the file name and adds no log and no error; a
    download that answers another code, or raises, adds the one error
    that says so and leaves the environment as it was. *)
Theorem provide_reports_download_failures requirement context context1 :
  EnvVarProvider_provide requirement context = (Return tt, context1) →
  mode context1 ≠ PROVIDE_MODE_CHECK →
  (existing_filename (analysis context1) = None →
   is_Some (environ context1 !! "PROJECT_DIR")) →
  (is_Some (environ context1 !! env_var requirement) →
   is_Some (config (analysis context1) !! "source")) →
  ∃ context2,
    provide requirement context = (Return tt, context2) ∧
    mode context2 = mode context1 ∧
    analysis context2 = analysis context1 ∧
    (is_Some (environ context1 !! env_var requirement) →
     config (analysis context1) !! "source" ≠ Some "download" →
     context2 = context1) ∧
    (environ context1 !! env_var requirement = None
     ∨ config (analysis context1) !! "source" = Some "download" →
     (∀ name, existing_filename (analysis context1) = Some name →
        environ context2 = <[env_var requirement := name]> (environ context1) ∧
        logs context2
        = logs context1 ++ ["Previously downloaded file located at " +:+ name] ∧
        errors context2 = errors context1) ∧
     (∀ dir, existing_filename (analysis context1) = None →
        environ context1 !! "PROJECT_DIR" = Some dir →
        let name := os_path_abspath (os_path_join dir (filename requirement)) in
        let outcome := run_download (url requirement) name (hash_algorithm requirement) in
        (outcome = Response 200 →
         environ context2 = <[env_var requirement := name]> (environ context1) ∧
         logs context2 = logs context1 ∧
         errors context2 = errors context1) ∧
        (∀ code, outcome = Response code → code ≠ 200%Z →
           environ context2 = environ context1 ∧
           logs context2 = logs context1 ∧
           errors context2
           = errors context1 ++ ["Error downloading " +:+ url requirement +:+
                                 ": response code " +:+ str_int code]) ∧
        (∀ message, outcome = DownloadRaises message →
           environ context2 = environ context1 ∧
           logs context2 = logs context1 ∧
           errors context2
           = errors context1 ++ ["Error downloading " +:+ url requirement +:+
                                 ": " +:+ message]))).
Proof.
  intros Hsuper Hmode Hdir Hsource. unfold Download.provide. rewrite Hsuper.
  rewrite decide_False by done.
  assert (∀ context2,
            match _provide_download requirement context1 with
            | (Raise e, context') => (Raise e, context')
            | (Return None, context') => (Return tt, context')
            | (Return (Some name), context') =>
                (Return tt, setenv (env_var requirement) name context')
            end = (Return tt, context2) →
            mode context2 = mode context1 ∧
            analysis context2 = analysis context1 ∧
            (∀ name, existing_filename (analysis context1) = Some name →
               environ context2 = <[env_var requirement := name]> (environ context1) ∧
               logs context2
               = logs context1 ++ ["Previously downloaded file located at " +:+ name] ∧
               errors context2 = errors context1) ∧
            (∀ dir, existing_filename (analysis context1) = None →
               environ context1 !! "PROJECT_DIR" = Some dir →
               let name := os_path_abspath (os_path_join dir (filename requirement)) in
               let outcome :=
                 run_download (url requirement) name (hash_algorithm requirement) in
               (outcome = Response 200 →
                environ context2 = <[env_var requirement := name]> (environ context1) ∧
                logs context2 = logs context1 ∧
                errors context2 = errors context1) ∧
               (∀ code, outcome = Response code → code ≠ 200%Z →
                  environ context2 = environ context1 ∧
                  logs context2 = logs context1 ∧
                  errors context2
                  = errors context1 ++ ["Error downloading " +:+ url requirement +:+
                                        ": response code " +:+ str_int code]) ∧
               (∀ message, outcome = DownloadRaises message →
                  environ context2 = environ context1 ∧
                  logs context2 = logs context1 ∧
                  errors context2
                  = errors context1 ++ ["Error downloading " +:+ url requirement +:+
                                        ": " +:+ message]))) as Hdownload.
  { intros context2. unfold Download._provide_download, getitem.
    destruct (existing_filename (analysis context1)) as [name|] eqn:Hexisting.
    - intros [= <-]. cbn. do 2 (split; [done|]). split; [by intros ? [= <-]|done].
    - destruct (Hdir eq_refl) as [dir Hlookup]. rewrite Hlookup.
      destruct (run_download _ _ _) as [code|message] eqn:Hrun.
      + case_decide as Hcode.
        * intros [= <-]. cbn. do 3 (split; [done|]).
          intros dir' _ [= <-]. cbv zeta. rewrite Hrun. subst code.
          split; [done|]. split; [by intros code [= <-]|done].
        * intros [= <-]. cbn. do 3 (split; [done|]).
          intros dir' _ [= <-]. cbv zeta. rewrite Hrun.
          split; [by intros [= ->]|]. split; [by intros code' [= <-]|done].
      + intros [= <-]. cbn. do 3 (split; [done|]).
        intros dir' _ [= <-]. cbv zeta. rewrite Hrun.
        split; [done|]. split; [done|]. by intros message' [= <-]. }
  assert (∃ context2,
            match _provide_download requirement context1 with
            | (Raise e, context') => (Raise e, context')
            | (Return None, context') => (Return tt, context')
            | (Return (Some name), context') =>
                (Return tt, setenv (env_var requirement) name context')
            end = (Return tt, context2)) as [downloaded Hreturns].
  { unfold Download._provide_download, getitem.
    destruct (existing_filename (analysis context1)) as [name|]; [by eexists|].
    destruct (Hdir eq_refl) as [dir ->].
    destruct (run_download _ _ _) as [code|message]; [case_decide|]; by eexists. }
  destruct (Hdownload _ Hreturns) as (Hmode2 & Hanalysis & Hfound & Hfetched).
  unfold wants_download, getitem.
  destruct (environ context1 !! env_var requirement) as [value|] eqn:Hvar.
  - destruct Hsource as [source Hlookup]; [by eexists|]. rewrite Hlookup.
    case_bool_decide as Hchosen.
    + exists downloaded. split; [done|]. do 2 (split; [done|]).
      split; [by subst source|done].
    + exists context1. split; [done|]. do 2 (split; [done|]). split; [done|].
      intros [?|[= ->]]; done.
  - exists downloaded. split; [done|]. do 2 (split; [done|]).
    split; [by intros [? ?]|done].
Qed.

End Facts.
End DownloadFacts.

(** * The claims on the stub project *)

Module Instances.
Import LocalState Prepare Scenario PrepareFacts UnprepareFacts DownloadFacts.

(** Scenario 1 of the spec: a variable that is already set. *)
Example scenario_already_set :
  let out := prepare (mkProject "/project" [FOO]) UI_MODE_NOT_INTERACTIVE {["FOO" := "1"]} ∅ in
  result out = Return true ∧ caller_environ out = {["FOO" := "1"]} ∧
  (provider_calls <$> (calls <$> working out)) = Some [].
Proof. vm_compute. repeat split; reflexivity. Qed.

(** Scenario 2: a provider that sets the variable. *)
Example scenario_provided :
  let out := prepare (mkProject "/project" [DATA_CSV]) UI_MODE_NOT_INTERACTIVE ∅ ∅ in
  result out = Return true ∧ caller_environ out !! "DATA_CSV" = Some "/project/data.csv".
Proof. vm_compute. split; reflexivity. Qed.

(** Scenario 3: a provider that reports an error. *)
Example scenario_failed :
  let out := prepare (mkProject "/project" [DATA_CSV_failing]) UI_MODE_NOT_INTERACTIVE ∅ ∅ in
  result out = Return false ∧ caller_environ out !! "DATA_CSV" = None ∧
  (λ st, unmet [DATA_CSV_failing] (environ_copy st)) <$> working out
  = Some [("data.csv requirement", "Environment variable DATA_CSV is not set")].
Proof. vm_compute. repeat split; reflexivity. Qed.

(** Scenario 4: the first requirement is provided, the second is not; the
    call fails and the caller's environment stays as it was. *)
Example scenario_second_fails :
  let out := prepare (mkProject "/project" [REDIS_URL; DATA_CSV_failing])
                     UI_MODE_NOT_INTERACTIVE ∅ ∅ in
  result out = Return false ∧ caller_environ out = ∅ ∧
  (environ_copy <$> working out) ≫= (.!! "REDIS_URL") = Some "redis://localhost:6379".
Proof. vm_compute. repeat split; reflexivity. Qed.

(** C2 on a project whose first requirement stays unmet. *)
Lemma prepare_validates_every_requirement_witness :
  let out := prepare (mkProject "/project" [DATA_CSV_failing; REDIS_URL])
                     UI_MODE_NOT_INTERACTIVE ∅ ∅ in
  result out = Return false ∧
  ∃ st r why_not, working out = Some st ∧ r ∈ [DATA_CSV_failing; REDIS_URL] ∧
    why_not_provided r (environ_copy st) = Some why_not.
Proof.
  intros out.
  assert (result out = Return false) as Hresult by (vm_compute; reflexivity).
  split; [done|].
  destruct (prepare_validates_every_requirement
              (mkProject "/project" [DATA_CSV_failing; REDIS_URL])
              UI_MODE_NOT_INTERACTIVE ∅ ∅ false Hresult)
    as (st & envs & Hst & _ & _ & [Hfailed _] & _).
  destruct (Hfailed eq_refl) as (r & why_not & Hr & Hwhy).
  exists st, r, why_not. split; [exact Hst|]. split; [exact Hr|exact Hwhy].
Defined.

(** C7 as amended, on a failed call. *)
Lemma prepare_returns_only_a_flag_witness :
  let project := mkProject "/project" [DATA_CSV_failing] in
  result (prepare project UI_MODE_BROWSER ∅ ∅) = Return false ∧
  ∃ st (provided : list (StubProvider * EnvVarRequirement * ProvideContext unit)),
    working (prepare project UI_MODE_BROWSER ∅ ∅) = Some st ∧
    false = bool_decide (unmet [DATA_CSV_failing] (environ_copy st) = []) ∧
    stdout st = flat_map (λ item, printed_logs item.2) provided ∧
    stderr st = flat_map (λ item, errors item.2) provided
                ++ report_lines (unmet [DATA_CSV_failing] (environ_copy st)).
Proof.
  intros project.
  assert (result (prepare project UI_MODE_BROWSER ∅ ∅) = Return false) as Hresult
    by (vm_compute; reflexivity).
  split; [exact Hresult|].
  destruct (prepare_returns_only_a_flag project UI_MODE_BROWSER ∅ ∅ false Hresult)
    as (st & provided & Hst & Hflag & _ & _ & _ & Hstdout & Hstderr).
  exists st, provided. split; [exact Hst|]. split; [exact Hflag|].
  split; [exact Hstdout|exact Hstderr].
Defined.

(** C7, refuted as stated: two failed calls return the same value and
    differ in what is unmet, so no reading of the returned value gives
    the unmet requirements. *)
Lemma prepare_result_does_not_carry_unmet :
  ¬ ∃ decode : PyResult bool → list (string * string),
      ∀ (project : Project EnvVarRequirement) st,
        working (prepare project UI_MODE_NOT_INTERACTIVE ∅ ∅) = Some st →
        decode (result (prepare project UI_MODE_NOT_INTERACTIVE ∅ ∅))
        = unmet (requirements project) (environ_copy st).
Proof.
  intros [decode Hdecode].
  assert (∃ st, working (prepare (mkProject "/project" [FOO]) UI_MODE_NOT_INTERACTIVE ∅ ∅)
                = Some st ∧
                result (prepare (mkProject "/project" [FOO]) UI_MODE_NOT_INTERACTIVE ∅ ∅)
                = Return false ∧
                unmet [FOO] (environ_copy st)
                = [("FOO requirement", "Environment variable FOO is not set")])
    as (st1 & Hst1 & Hresult1 & Hunmet1) by (vm_compute; eexists; done).
  assert (∃ st, working (prepare (mkProject "/project" [DATA_CSV_failing])
                                 UI_MODE_NOT_INTERACTIVE ∅ ∅) = Some st ∧
                result (prepare (mkProject "/project" [DATA_CSV_failing])
                                UI_MODE_NOT_INTERACTIVE ∅ ∅) = Return false ∧
                unmet [DATA_CSV_failing] (environ_copy st)
                = [("data.csv requirement", "Environment variable DATA_CSV is not set")])
    as (st2 & Hst2 & Hresult2 & Hunmet2) by (vm_compute; eexists; done).
  pose proof (Hdecode _ _ Hst1) as Hfoo. pose proof (Hdecode _ _ Hst2) as Hdata.
  cbn [requirements] in Hfoo, Hdata.
  rewrite Hresult1, Hunmet1 in Hfoo. rewrite Hresult2, Hunmet2 in Hdata.
  congruence.
Qed.


(** C4 on a second run, started from the environment the first run left. *)
Lemma satisfied_entries_are_skipped_witness :
  let project := mkProject "/project" [DATA_CSV; REDIS_URL] in
  let merged : Environ :=
    {["HOME" := "/root"; "DATA_CSV" := "/project/data.csv";
      "REDIS_URL" := "redis://localhost:6379"]} in
  let first := prepare project UI_MODE_NOT_INTERACTIVE {["HOME" := "/root"]} ∅ in
  let second := prepare project UI_MODE_NOT_INTERACTIVE merged ∅ in
  (result first = Return true ∧ caller_environ first = merged) ∧
  (∀ r, r ∈ requirements project → why_not_provided r merged = None) ∧
  ∃ st, working second = Some st ∧ provider_calls (calls st) = [].
Proof.
  intros project merged first second.
  split; [vm_compute; split; reflexivity|].
  assert (∀ r, r ∈ requirements project → why_not_provided r merged = None) as Hmet.
  { intros r Hin. apply elem_of_cons in Hin as [->|Hin]; [by vm_compute|].
    apply elem_of_cons in Hin as [->|Hin]; [by vm_compute|].
    by apply elem_of_nil in Hin. }
  split; [done|].
  assert (∃ st, working second = Some st) as [st Hst] by (vm_compute; by eexists).
  exists st. split; [done|].
  by apply (satisfied_entries_are_skipped project UI_MODE_NOT_INTERACTIVE merged ∅ st Hst).
Defined.

(** C5 on a provider that reports an error, followed by one that succeeds. *)
Lemma plan_continues_after_errors_witness :
  let failing := ReportsError "starting download" "Error downloading data.csv" in
  let later := (SetsVariable "redis://localhost:6379", REDIS_URL) in
  let st := mkEngine ∅ (load_for_directory ∅ "/project") [] [] [] in
  let context := mkProvideContext ∅ (load_for_directory ∅ "/project") tt
                                  ["starting download"] ["Error downloading data.csv"] in
  let st' := (run_plan ([] ++ (failing, DATA_CSV_failing) :: [later]) st).2 in
  (run_plan [] st = (Return tt, st) ∧
   why_not_provided DATA_CSV_failing (environ_copy st)
   = Some "Environment variable DATA_CSV is not set" ∧
   provide failing DATA_CSV_failing
           (new_ProvideContext (environ_copy st) (local_state st)
                               (read_config failing (local_state st) DATA_CSV_failing))
   = (Return tt, context)) ∧
  environ_copy st' !! "REDIS_URL" = Some "redis://localhost:6379" ∧
  stdout st' = ["starting download"] ∧
  stderr st' = ["Error downloading data.csv"].
Proof.
  intros failing later st context st'.
  assert (run_plan [] st = (Return tt, st)) as Hbefore by reflexivity.
  assert (why_not_provided DATA_CSV_failing (environ_copy st)
          = Some "Environment variable DATA_CSV is not set") as Hwhy
    by (vm_compute; reflexivity).
  assert (provide failing DATA_CSV_failing
            (new_ProvideContext (environ_copy st) (local_state st)
                                (read_config failing (local_state st) DATA_CSV_failing))
          = (Return tt, context)) as Hprovide by reflexivity.
  split; [done|]. subst st'.
  rewrite (plan_continues_after_errors [] failing DATA_CSV_failing [later] st st
             _ context Hbefore Hwhy Hprovide).
  by vm_compute.
Defined.

(** C10 on a provider that removes a key from the working copy. *)
Lemma commit_never_deletes_witness :
  let out := prepare (mkProject "/project" [MODEL_BIN; REDIS_URL]) UI_MODE_BROWSER
                     {["STALE" := "x"]} ∅ in
  ({["STALE" := "x"]} : Environ) !! "STALE" = Some "x" ∧
  result out = Return true ∧
  (∃ st, working out = Some st ∧ environ_copy st !! "STALE" = None) ∧
  caller_environ out !! "STALE" = Some "x".
Proof.
  intros out.
  assert (({["STALE" := "x"]} : Environ) !! "STALE" = Some "x") as Hstale
    by (vm_compute; reflexivity).
  assert (∃ st, working out = Some st ∧ environ_copy st !! "STALE" = None)
    as (st & Hst & Hgone) by (vm_compute; eexists; done).
  split; [done|]. split; [by vm_compute|]. split; [by exists st|].
  by apply (commit_never_deletes (mkProject "/project" [MODEL_BIN; REDIS_URL])
              UI_MODE_BROWSER {["STALE" := "x"]} ∅ "STALE" "x" Hstale) with st.
Defined.


(** C9, refuted as stated: without [PROJECT_DIR] in the environment the
    lookup of line 91 raises, and the [KeyError] leaves [provide]. *)
Lemma provide_raises_without_project_dir :
  (Download.provide base_provide unix_join unix_abspath (server_answers 200)
                    data_csv (context_in ∅)).1
  = Raise (KeyError "PROJECT_DIR").
Proof. by vm_compute. Qed.

(** C9 as amended, on a download that answers 404. *)
Lemma provide_reports_download_failures_witness :
  let context := context_in {["PROJECT_DIR" := "/project"]} in
  (base_provide data_csv context = (Return tt, context) ∧
   Download.mode context ≠ Download.PROVIDE_MODE_CHECK ∧
   is_Some (Download.environ context !! "PROJECT_DIR")) ∧
  ∃ context2,
    Download.provide base_provide unix_join unix_abspath (server_answers 404)
                     data_csv context = (Return tt, context2) ∧
    Download.environ context2 = Download.environ context ∧
    Download.errors context2
    = ["Error downloading http://example.com/data.csv: response code 404"].
Proof.
  intros context.
  assert (Download.environ context !! "PROJECT_DIR" = Some "/project") as Hdir
    by (vm_compute; reflexivity).
  assert (Download.environ context !! Download.env_var data_csv = None) as Hunset
    by (vm_compute; reflexivity).
  assert (is_Some (Download.config (Download.analysis context) !! "source")) as Hsource
    by (vm_compute; by eexists).
  split; [by rewrite Hdir|].
  destruct (provide_reports_download_failures base_provide unix_join unix_abspath
              (server_answers 404) data_csv context context eq_refl)
    as (context2 & Hprovide & _ & _ & _ & Hwanted);
    [done|by rewrite Hdir|done|].
  destruct (Hwanted (or_introl Hunset)) as [_ Hfetched].
  destruct (Hfetched "/project" eq_refl Hdir) as (_ & Hcode & _).
  destruct (Hcode 404%Z eq_refl) as (Henviron & _ & Herrors); [done|].
  exists context2. split; [exact Hprovide|]. split; [exact Henviron|].
  rewrite Herrors. vm_compute. reflexivity.
Defined.

End Instances.

(** * Further properties of [prepare] *)

Module PrepareExtras.
Import LocalState Prepare PrepareFacts.

Section Facts.
Context {R P Config : Type}.
Context `{!Requirement R P, !Provider R P Config, !ConfigureUI R P}.

Implicit Types (st : @Engine R P) (plan : list (P * R)) (reqs : list R).

(** X4. The logs of a provider reach standard output only when that
    provider has left an error in its context. However the call ends,
    standard output holds, for the providers whose [provide] returned,
    in the order of the plan, the logs of those whose context holds an
    error and nothing for the others; their errors are the first lines
    on standard error. So a call that has printed on standard output has
    printed on standard error. *)
Theorem logs_only_with_errors (project : Project R) ui_mode (environ : Environ) disk st :
  let plan := build_plan (resolve_providers mkProviderRegistry (requirements project)) in
  working (prepare project ui_mode environ disk) = Some st →
  ∃ (provided : list (P * R * ProvideContext Config)) raised,
    map fst provided `sublist_of` plan ∧
    Forall provided_by provided ∧
    provider_calls (calls st) = provide_calls provided ++ raised ∧
    (raised = [] ∨ ∃ p r, (p, r) ∈ plan ∧ raised = [CallReadConfig p r; CallProvide p r]) ∧
    stdout st = flat_map (λ item, match errors item.2 with
                                  | [] => []
                                  | _ :: _ => logs item.2
                                  end) provided ∧
    flat_map (λ item, errors item.2) provided `prefix_of` stderr st ∧
    (stdout st ≠ [] → stderr st ≠ []).
Proof.
  intros plan Hst.
  destruct (prepare_prints project ui_mode environ disk st Hst)
    as (provided & raised & Hsub & Hall & Hstdout & Hcalls & Hprinted).
  assert ((raised = [] ∨
           ∃ p r, (p, r) ∈ plan ∧ raised = [CallReadConfig p r; CallProvide p r]) ∧
          flat_map (λ item, errors item.2) provided `prefix_of` stderr st)
    as [Hraised Hstderr].
  { destruct (result (prepare project ui_mode environ disk)).
    - destruct Hprinted as [-> ->]. split; [by left|]. by apply prefix_app_r.
    - destruct Hprinted as [-> Hraised]. done. }
  exists provided, raised. do 4 (split; [done|]). split; [exact Hstdout|].
  split; [done|].
  rewrite Hstdout. intros Hlogs%printed_logs_need_errors Hnil.
  destruct Hstderr as [more Hmore]. rewrite Hnil in Hmore.
  symmetry in Hmore. by apply app_eq_nil in Hmore as [? _].
Qed.

(** What [prepare] does on an environment in which nothing is missing. *)
Lemma prepare_met_outcome (project : Project R) ui_mode (environ : Environ) disk :
  ui_mode ∈ [UI_MODE_BROWSER; UI_MODE_NOT_INTERACTIVE] →
  (∀ r, r ∈ requirements project → why_not_provided r environ = None) →
  let out := prepare project ui_mode environ disk in
  result out = Return true ∧ caller_environ out = environ ∧
  ∃ st, working out = Some st ∧ environ_copy st = environ ∧
    stdout st = [] ∧ stderr st = [] ∧ provider_calls (calls st) = [].
Proof.
  intros Hmode Hmet out. subst out.
  destruct (prepare_outcome project ui_mode environ disk)
    as [[Hbad _]|[[-> _]|[[_ (ls & e' & st1 & Hrun & _)]|[_ (ls & st1 & Hrun & Hout)]]]].
  - by apply interactive_mode_recognized in Hmode.
  - rewrite !elem_of_cons, elem_of_nil in Hmode. by destruct Hmode as [?|[?|?]].
  - destruct (run_plan_all_satisfied
                (build_plan (resolve_providers mkProviderRegistry (requirements project)))
                (mkEngine environ ls [] [] [])) as (cs & _ & Hall).
    { intros entry Hin. apply Hmet. by apply plan_requirements. }
    rewrite Hall in Hrun. done.
  - destruct (run_plan_all_satisfied
                (build_plan (resolve_providers mkProviderRegistry (requirements project)))
                (mkEngine environ ls [] [] [])) as (cs & Hcs & Hall).
    { intros entry Hin. apply Hmet. by apply plan_requirements. }
    rewrite Hall in Hrun. injection Hrun as <-. cbn in Hout.
    apply unmet_nil in Hmet.
    destruct Hout as [[_ ->]|[Hne _]]; [|done]. cbn.
    split; [done|]. split.
    + rewrite commit_union. apply map_eq. intros key. rewrite lookup_union.
      by destruct (environ !! key).
    + eexists. split; [done|]. cbn [environ_copy stdout stderr calls].
      rewrite Hmet. do 3 (split; [done|]).
      rewrite provider_calls_app, (provider_calls_checks cs Hcs). cbn [app].
      apply provider_calls_checks, validation_calls_are_checks.
Qed.

(** X5. On an environment in which every requirement is met, in the
    browser or the non-interactive mode, [prepare] returns [True], hands
    the environment back as it was and prints nothing. *)
Theorem prepare_noop_when_met (project : Project R) ui_mode (environ : Environ) disk :
  ui_mode ∈ [UI_MODE_BROWSER; UI_MODE_NOT_INTERACTIVE] →
  (∀ r, r ∈ requirements project → why_not_provided r environ = None) →
  let out := prepare project ui_mode environ disk in
  result out = Return true ∧ caller_environ out = environ ∧
  ∃ st, working out = Some st ∧ environ_copy st = environ ∧
    stdout st = [] ∧ stderr st = [] ∧ provider_calls (calls st) = [].
Proof. apply prepare_met_outcome. Qed.

(** X6. Two runs in a row. When a first run has returned [True] and its
    working copy has kept every key of the environment it started from,
    a second run on the environment the first one left returns [True],
    leaves that environment as it is and calls no provider. *)
Theorem prepare_twice (project : Project R) ui_mode (environ : Environ) disk disk' st :
  let first := prepare project ui_mode environ disk in
  result first = Return true →
  working first = Some st →
  (∀ key, is_Some (environ !! key) → is_Some (environ_copy st !! key)) →
  let second := prepare project ui_mode (caller_environ first) disk' in
  result second = Return true ∧
  caller_environ second = caller_environ first ∧
  ∃ st2, working second = Some st2 ∧ provider_calls (calls st2) = [].
Proof.
  intros first Hresult Hst Hkept second. subst first second.
  destruct (prepare_outcome project ui_mode environ disk)
    as [[_ Hout]|[[_ [ls Hout]]|[[_ (ls & e' & st1 & _ & Hout)]|[Hmode (ls & st1 & _ & Hout)]]]];
    try (rewrite Hout in Hresult; done).
  cbv zeta in Hout.
  destruct Hout as [[Hmet Hout]|[_ Hout]]; [|rewrite Hout in Hresult; done].
  rewrite Hout in Hst |- *. injection Hst as <-. cbn in Hkept |- *.
  assert (commit (environ_copy st1) environ = environ_copy st1) as ->.
  { rewrite commit_union. apply map_eq. intros key. rewrite lookup_union.
    destruct (environ_copy st1 !! key) as [v|] eqn:Hcopy.
    - by destruct (environ !! key).
    - destruct (environ !! key) as [v|] eqn:Henv; [|done].
      destruct (Hkept key) as [v' Hv']; [by eexists|]. congruence. }
  rewrite unmet_nil in Hmet.
  destruct (prepare_met_outcome project ui_mode (environ_copy st1) disk' Hmode Hmet)
    as (Hres & Henv & st2 & Hst2 & _ & _ & _ & Hcalls).
  split; [done|]. split; [done|]. by exists st2.
Qed.

End Facts.
End PrepareExtras.

(** * [prepare] when the objects it calls raise *)

Module UnguardedFacts.
Import LocalState Unguarded.

Section Agreement.
Context {R P Config : Type}.
Context `{!Prepare.Requirement R P, !Prepare.Provider R P Config, !Prepare.ConfigureUI R P}.

#[local] Existing Instances returning_requirement returning_provider returning_ui.

Lemma resolve_providers_returning reqs :
  resolve_providers mkProviderRegistry reqs
  = Return (Prepare.resolve_providers mkProviderRegistry reqs).
Proof. induction reqs as [|r reqs IH]; [done|]. cbn. by rewrite IH. Qed.

Lemma run_entry_returning entry (st : @Engine R P) :
  run_entry entry st = Prepare.run_entry entry st.
Proof.
  destruct entry as [p r]. unfold run_entry, Prepare.run_entry. cbn.
  by destruct (Prepare.why_not_provided r (environ_copy st)).
Qed.

Lemma run_plan_returning plan (st : @Engine R P) :
  run_plan plan st = Prepare.run_plan plan st.
Proof.
  revert st. induction plan as [|entry plan IH]; intros st; [done|].
  cbn [run_plan Prepare.run_plan]. rewrite run_entry_returning.
  destruct (Prepare.run_entry entry st) as [[u|e] st1]; [apply IH|done].
Qed.

Lemma validate_returning reqs failed (st : @Engine R P) :
  validate reqs failed st
  = (Return (Prepare.validate reqs failed st).1, (Prepare.validate reqs failed st).2).
Proof.
  revert failed st. induction reqs as [|r reqs IH]; intros failed st; [done|].
  cbn [validate Prepare.validate]. cbn.
  destruct (Prepare.why_not_provided r (environ_copy st)); apply IH.
Qed.

(** On objects whose methods return, the two engines are one. *)
Lemma prepare_returning (project : Project R) ui_mode (environ : Environ) disk :
  prepare project ui_mode environ disk = Prepare.prepare project ui_mode environ disk.
Proof.
  unfold prepare, Prepare.prepare. case_decide; [done|].
  rewrite resolve_providers_returning.
  unfold _configure_prepare, Prepare._configure_prepare.
  repeat case_decide; cbn; try done.
  - rewrite run_plan_returning. destruct (Prepare.run_plan _ _) as [[u|e] st]; [|done].
    rewrite validate_returning. by destruct (Prepare.validate _ _ _) as [[] st'].
  - rewrite run_plan_returning. destruct (Prepare.run_plan _ _) as [[u|e] st]; [|done].
    rewrite validate_returning. by destruct (Prepare.validate _ _ _) as [[] st'].
Qed.

End Agreement.

Section Facts.
Context {R P Config : Type}.
Context `{!Requirement R P, !Provider R P Config, !ConfigureUI R P}.

Implicit Types (st : @Engine R P) (plan : list (P * R)) (reqs : list R).

Lemma resolve_providers_raises reqs e :
  resolve_providers mkProviderRegistry reqs = Raise e →
  ∃ r, r ∈ reqs ∧ find_providers r mkProviderRegistry = Raise e.
Proof.
  induction reqs as [|r reqs IH]; [done|]. cbn.
  destruct (find_providers r mkProviderRegistry) as [providers|e'] eqn:Hfind.
  - destruct (resolve_providers mkProviderRegistry reqs) as [pairs|e'']; [done|].
    intros [= <-]. destruct (IH eq_refl) as (r' & Hin & Hraise).
    exists r'. split; [by right|done].
  - intros [= <-]. exists r. split; [by left|done].
Qed.

Lemma resolve_providers_returns reqs :
  (∀ r, r ∈ reqs → returns (find_providers r mkProviderRegistry)) →
  ∃ pairs, resolve_providers mkProviderRegistry reqs = Return pairs.
Proof.
  induction reqs as [|r reqs IH]; intros Hreturns; [by eexists|]. cbn.
  pose proof (Hreturns r (list_elem_of_here _ _)) as Hr.
  destruct (find_providers r mkProviderRegistry) as [providers|e]; [|done].
  destruct IH as [pairs ->]; [|by eexists].
  intros r' Hin. apply Hreturns. by right.
Qed.

Lemma plan_requirement reqs pairs (entry : P * R) :
  resolve_providers mkProviderRegistry reqs = Return pairs →
  entry ∈ build_plan pairs → entry.2 ∈ reqs.
Proof.
  revert pairs. induction reqs as [|r reqs IH]; intros pairs; cbn.
  - intros [= <-]. cbn. by intros ?%elem_of_nil.
  - destruct (find_providers r mkProviderRegistry) as [providers|e]; [|done].
    destruct (resolve_providers mkProviderRegistry reqs) as [rest|e]; [|done].
    intros [= <-]. cbn. rewrite elem_of_app.
    intros [(p & -> & _)%list_elem_of_fmap|Hin]; [by left|].
    right. by eapply IH.
Qed.

(** An exception that ends the loop over the plan was raised by one of
    the three calls made for an entry. *)
Lemma run_plan_raises plan st e st' :
  run_plan plan st = (Raise e, st') →
  ∃ p r, (p, r) ∈ plan ∧
    ((∃ env, why_not_provided r env = Raise e)
     ∨ (∃ ls, read_config p ls r = Raise e)
     ∨ (∃ context context', provide p r context = (Raise e, context'))).
Proof.
  revert st. induction plan as [|[p r] plan IH]; intros st Hrun; [done|].
  cbn [run_plan] in Hrun. unfold run_entry in Hrun. cbn in Hrun.
  assert (∀ st1, run_plan plan st1 = (Raise e, st') →
            ∃ p' r', (p', r') ∈ (p, r) :: plan ∧
              ((∃ env, why_not_provided r' env = Raise e)
               ∨ (∃ ls, read_config p' ls r' = Raise e)
               ∨ (∃ context context', provide p' r' context = (Raise e, context'))))
    as Hrest.
  { intros st1 Hrun1. destruct (IH _ Hrun1) as (p' & r' & Hin & Hcall).
    exists p', r'. split; [by right|done]. }
  destruct (why_not_provided r (environ_copy st)) as [[why_not|]|e'] eqn:Hwhy.
  - destruct (read_config p (local_state st) r) as [config|e'] eqn:Hconfig.
    + destruct (provide p r _) as [[[]|e'] context] eqn:Hprovide; cbn in Hrun.
      * by eapply Hrest.
      * injection Hrun as <- <-. exists p, r. split; [by left|]. right; right. by eexists _, _.
    + injection Hrun as <- <-. exists p, r. split; [by left|]. right; left. by eexists.
  - by eapply Hrest.
  - injection Hrun as <- <-. exists p, r. split; [by left|]. left. by eexists.
Qed.

Lemma run_plan_returns plan st :
  (∀ entry, entry ∈ plan →
     (∀ env, returns (why_not_provided entry.2 env)) ∧
     (∀ ls, returns (read_config entry.1 ls entry.2)) ∧
     (∀ context, returns (provide entry.1 entry.2 context).1)) →
  ∃ st', run_plan plan st = (Return tt, st').
Proof.
  revert st. induction plan as [|[p r] plan IH]; intros st Hreturns; [by eexists|].
  cbn [run_plan]. unfold run_entry. cbn.
  destruct (Hreturns (p, r) (list_elem_of_here _ _)) as (Hwhy & Hconfig & Hprovide).
  cbn in Hwhy, Hconfig, Hprovide.
  assert (∀ st1, ∃ st', run_plan plan st1 = (Return tt, st')) as Hrest.
  { intros st1. apply IH. intros entry Hin. apply Hreturns. by right. }
  specialize (Hwhy (environ_copy st)).
  destruct (why_not_provided r (environ_copy st)) as [[why_not|]|e]; [|apply Hrest|done].
  specialize (Hconfig (local_state st)).
  destruct (read_config p (local_state st) r) as [config|e]; [|done].
  match goal with |- context [provide p r ?c] => specialize (Hprovide c) end.
  destruct (provide p r _) as [[[]|e] context]; [|done]. cbn. apply Hrest.
Qed.

Lemma validate_raises reqs failed st e st' :
  validate reqs failed st = (Raise e, st') →
  ∃ r env, r ∈ reqs ∧ why_not_provided r env = Raise e.
Proof.
  revert failed st. induction reqs as [|r reqs IH]; intros failed st Hrun; [done|].
  cbn [validate] in Hrun. cbn in Hrun.
  destruct (why_not_provided r (environ_copy st)) as [[why_not|]|e'] eqn:Hwhy.
  - destruct (IH _ _ Hrun) as (r' & env & Hin & Hraise).
    exists r', env. split; [by right|done].
  - destruct (IH _ _ Hrun) as (r' & env & Hin & Hraise).
    exists r', env. split; [by right|done].
  - injection Hrun as <- <-. exists r, (environ_copy st). split; [by left|done].
Qed.

Lemma validate_returns reqs failed st :
  (∀ r env, r ∈ reqs → returns (why_not_provided r env)) →
  ∃ b st', validate reqs failed st = (Return b, st').
Proof.
  revert failed st. induction reqs as [|r reqs IH]; intros failed st Hreturns;
    [by eexists _, _|].
  cbn [validate]. cbn.
  pose proof (Hreturns r (environ_copy st) (list_elem_of_here _ _)) as Hwhy.
  destruct (why_not_provided r (environ_copy st)) as [[why_not|]|e]; [| |done];
    apply IH; intros r' env Hin; apply Hreturns; by right.
Qed.

(** X2. [prepare] catches nothing and raises nothing of its own beyond
    the [ValueError] for an unknown mode and the [UnboundLocalError] of
    the text mode. An exception that leaves it was raised by one of the
    calls it makes: the [find_providers] or the [why_not_provided] of a
    requirement of the project, the [configure_prepare] of the user
    interface, or the [read_config] or the [provide] of a provider of
    the plan. In every case the caller's environment is as it was. *)
Theorem prepare_raises_only (project : Project R) ui_mode (environ : Environ) disk e :
  let out := prepare project ui_mode environ disk in
  result out = Raise e →
  caller_environ out = environ ∧
  ((ui_mode ∉ _all_ui_modes) ∧ e = ValueError ("invalid UI mode " +:+ ui_mode)
   ∨ (∃ r, r ∈ requirements project ∧ find_providers r mkProviderRegistry = Raise e)
   ∨ ui_mode = UI_MODE_TEXT ∧ e = UnboundLocalError "ui"
   ∨ (∃ ui context ls, configure_prepare ui context = (Raise e, ls))
   ∨ (∃ r env, r ∈ requirements project ∧ why_not_provided r env = Raise e)
   ∨ (∃ pairs p r,
        resolve_providers mkProviderRegistry (requirements project) = Return pairs ∧
        (p, r) ∈ build_plan pairs ∧
        ((∃ ls, read_config p ls r = Raise e)
         ∨ (∃ context context', provide p r context = (Raise e, context'))))).
Proof.
  intros out. subst out. unfold prepare.
  case_decide as Hmode; [intros [= <-]; split; [done|]; by left|].
  destruct (resolve_providers mkProviderRegistry (requirements project))
    as [pairs|e'] eqn:Hpairs.
  2: { intros [= <-]. split; [done|]. right; left. by apply resolve_providers_raises. }
  unfold _configure_prepare.
  match goal with |- context [match ?chosen with Some _ => _ | None => _ end] =>
    destruct chosen as [ui|] eqn:Hui end.
  2: { cbn. intros [= <-]. split; [done|]. right; right; left. split; [|done].
       repeat case_decide; try done.
       unfold _all_ui_modes in Hmode.
       rewrite !elem_of_cons, elem_of_nil in Hmode. tauto. }
  destruct (configure_prepare ui _) as [[[]|e'] ls] eqn:Hconfigure.
  2: { cbn. intros [= <-]. split; [done|]. do 3 right. left. by eexists _, _, _. }
  destruct (run_plan _ _) as [[[]|e'] st] eqn:Hrun.
  2: { cbn. intros [= <-]. split; [done|].
       destruct (run_plan_raises _ _ _ _ Hrun) as (p & r & Hin & [Hwhy|Hcall]).
       - do 4 right. left. destruct Hwhy as [env Hwhy]. exists r, env. split; [|done].
         by apply (plan_requirement _ _ (p, r) Hpairs).
       - do 5 right. by exists pairs, p, r. }
  destruct (validate _ _ _) as [[failed|e'] st'] eqn:Hvalidate.
  - by destruct failed.
  - cbn. intros [= <-]. split; [done|]. do 4 right. left. by eapply validate_raises.
Qed.

(** X3. In the browser and the non-interactive mode, when the calls
    that [prepare] makes all return ([find_providers] and
    [why_not_provided] of the requirements of the project,
    [configure_prepare], [read_config] and [provide] of the providers of
    the plan), [prepare] returns [True] or [False]. *)
Theorem prepare_returns (project : Project R) ui_mode (environ : Environ) disk :
  ui_mode ∈ [UI_MODE_BROWSER; UI_MODE_NOT_INTERACTIVE] →
  (∀ r, r ∈ requirements project →
     returns (find_providers r mkProviderRegistry) ∧
     ∀ env, returns (why_not_provided r env)) →
  (∀ ui context, returns (configure_prepare ui context).1) →
  (∀ pairs entry,
     resolve_providers mkProviderRegistry (requirements project) = Return pairs →
     entry ∈ build_plan pairs →
     (∀ ls, returns (read_config entry.1 ls entry.2)) ∧
     (∀ context, returns (provide entry.1 entry.2 context).1)) →
  ∃ b, result (prepare project ui_mode environ disk) = Return b.
Proof.
  intros Hmode Hreq Hui Hplan. unfold prepare.
  rewrite decide_False.
  2: { intros Hbad. by apply Hbad, PrepareFacts.interactive_mode_recognized. }
  destruct (resolve_providers_returns (requirements project)) as [pairs Hpairs];
    [intros r Hin; by apply Hreq|].
  rewrite Hpairs. unfold _configure_prepare.
  match goal with |- context [match ?found with Some _ => _ | None => _ end] =>
    assert (∃ chosen, found = Some chosen) as [chosen ->] end.
  { rewrite !elem_of_cons, elem_of_nil in Hmode.
    destruct Hmode as [->|[->|[]]]; by eexists. }
  match goal with |- context [configure_prepare chosen ?c] =>
    specialize (Hui chosen c); destruct (configure_prepare chosen c) as [[[]|e] ls] end;
    [|done].
  destruct (run_plan_returns (build_plan pairs) (mkEngine environ ls [] [] []))
    as [st ->].
  { intros entry Hin. destruct (Hplan pairs entry Hpairs Hin) as [Hconfig Hprovide].
    split; [|done]. intros env. apply Hreq. by eapply plan_requirement. }
  destruct (validate_returns (requirements project) false st) as (failed & st' & ->).
  { intros r env Hin. by apply Hreq. }
  destruct failed; by eexists.
Qed.

End Facts.
End UnguardedFacts.

(** * Further properties of [unprepare] *)

Module UnprepareExtras.
Import LocalState Prepare.

Section Facts.
Context {OS : Type}.
Variable subprocess_call : Command → OS → PyResult Z * OS.
Variable repr : Command → string.

Lemma run_commands_disk (commands : list Command) (w : Host) res w' :
  run_commands subprocess_call repr commands w = (res, w') → host_disk w' = host_disk w.
Proof.
  revert w. induction commands as [|command commands IH]; intros w Hrun.
  - by injection Hrun as <- <-.
  - cbn [run_commands] in Hrun.
    destruct (subprocess_call command _) as [[code|e] os].
    + by rewrite (IH _ Hrun).
    + by injection Hrun as <- <-.
Qed.

Lemma set_service_run_state_id name state (ls : LocalStateFile) :
  get_all_service_run_states ls !! name = Some state →
  set_service_run_state name state ls = ls.
Proof.
  destruct ls as [dir [vals states]]. unfold get_all_service_run_states, set_service_run_state.
  cbn. intros Hname. by rewrite insert_id.
Qed.

Lemma host_save_id (ls : LocalStateFile) (w : @Host OS) :
  host_disk w !! directory_path ls = Some (contents ls) → host_save ls w = w.
Proof.
  destruct w as [disk os out launched]. unfold host_save, save. cbn.
  intros Hdisk. by rewrite insert_id.
Qed.

(** What the loop over the services keeps, however it ends. *)
Lemma shutdown_services_inv (l : list (string * RunState)) (ls : LocalStateFile) (w : Host)
    res ls' w' :
  NoDup l.*1 →
  (∀ name state, (name, state) ∈ l → get_all_service_run_states ls !! name = Some state) →
  shutdown_services subprocess_call repr l.*1 ls w = (res, ls', w') →
  directory_path ls' = directory_path ls ∧
  values (contents ls') = values (contents ls) ∧
  (∀ name, name ∉ l.*1 →
           get_all_service_run_states ls' !! name = get_all_service_run_states ls !! name) ∧
  (∀ name, name ∈ l.*1 → is_Some (get_all_service_run_states ls' !! name)) ∧
  (∀ dir, dir ≠ directory_path ls → host_disk w' !! dir = host_disk w !! dir) ∧
  (host_disk w' = host_disk w ∧ ls' = ls
   ∨ host_disk w' !! directory_path ls = Some (contents ls')) ∧
  match res with
  | Return _ =>
      ∀ name, name ∈ l.*1 → get_all_service_run_states ls' !! name = Some empty_run_state
  | Raise _ =>
      ∃ name state, (name, state) ∈ l ∧ is_Some (shutdown_commands state) ∧
        get_all_service_run_states ls' !! name = Some state
  end.
Proof.
  revert ls w. induction l as [|[name state] l IH]; intros ls w Hnd Hlookup Hrun.
  - injection Hrun as <- <- <-. repeat split; try done.
    + by intros name ?%elem_of_nil.
    + by left.
    + by intros name ?%elem_of_nil.
  - cbn [fmap list_fmap fst shutdown_services] in Hrun. cbn [fmap list_fmap fst] in Hnd.
    apply NoDup_cons in Hnd as [Hfresh Hnd].
    unfold getitem in Hrun. rewrite (Hlookup name state) in Hrun by left.
    destruct (match shutdown_commands state with
              | Some commands => run_commands subprocess_call repr commands w
              | None => (Return tt, w)
              end) as [res1 w1] eqn:Hcommands.
    assert (host_disk w1 = host_disk w) as Hdisk1.
    { destruct (shutdown_commands state) as [commands|].
      - by eapply run_commands_disk.
      - by injection Hcommands as <- <-. }
    destruct res1 as [[]|e].
    + set (ls1 := set_service_run_state name empty_run_state ls) in Hrun.
      assert (∀ name' state', (name', state') ∈ l →
                get_all_service_run_states ls1 !! name' = Some state') as Hlookup1.
      { intros name' state' Hin. unfold get_all_service_run_states. cbn.
        rewrite lookup_insert_ne.
        - by apply Hlookup; right.
        - intros <-. apply Hfresh. apply list_elem_of_fmap. by exists (name, state'). }
      destruct (IH ls1 (host_save ls1 w1) Hnd Hlookup1 Hrun)
        as (Hdir & Hvalues & Hother & Hsome & Hframe & Hdisk & Hres).
      split; [done|]. split; [done|]. split; [|split; [|split; [|split]]].
      * intros name' Hnotin. apply not_elem_of_cons in Hnotin as [Hne Hnotin].
        rewrite Hother by done. unfold get_all_service_run_states. cbn.
        by rewrite lookup_insert_ne.
      * intros name' [->|Hin]%elem_of_cons; [|by apply Hsome].
        rewrite Hother by done. unfold get_all_service_run_states. cbn.
        rewrite lookup_insert_eq. by eexists.
      * intros dir Hne. rewrite Hframe by done. cbn. unfold save. cbn.
        rewrite lookup_insert_ne by done. by rewrite Hdisk1.
      * right. destruct Hdisk as [[Hsame ->]|Hsaved]; [|done].
        rewrite Hsame. cbn. unfold save. by rewrite lookup_insert_eq.
      * destruct res as [[]|e].
        -- intros name' [->|Hin]%elem_of_cons; [|by apply Hres].
           rewrite Hother by done. unfold get_all_service_run_states. cbn.
           by rewrite lookup_insert_eq.
        -- destruct Hres as (name' & state' & Hin & Hcommands' & Hkept).
           exists name', state'. split; [by right|done].
    + injection Hrun as <- <- <-.
      split; [done|]. split; [done|]. split; [done|]. split; [|split; [|split]].
      * intros name' [->|Hin]%elem_of_cons.
        -- erewrite (Hlookup _ state) by left. by eexists.
        -- apply list_elem_of_fmap in Hin as [[n s] [-> Hin]]. cbn [fst].
           rewrite (Hlookup n s) by (by right). by eexists.
      * intros dir _. by rewrite Hdisk1.
      * by left.
      * exists name, state. split; [by left|]. split; [|by apply Hlookup; left].
        destruct (shutdown_commands state); [by eexists|].
        by injection Hcommands.
Qed.

Lemma shutdown_services_cleared (names : list string) (ls : LocalStateFile) (w : Host) :
  (∀ name, name ∈ names → get_all_service_run_states ls !! name = Some empty_run_state) →
  (names ≠ [] → host_disk w !! directory_path ls = Some (contents ls)) →
  shutdown_services subprocess_call repr names ls w = (Return tt, ls, w).
Proof.
  induction names as [|name names IH]; intros Hempty Hdisk; [done|].
  cbn [shutdown_services]. unfold getitem. rewrite (Hempty name) by left. cbn.
  rewrite set_service_run_state_id by (apply Hempty; left).
  rewrite host_save_id by (by apply Hdisk).
  apply IH.
  - intros name' Hin. apply Hempty. by right.
  - intros _. by apply Hdisk.
Qed.

Lemma load_for_directory_saved (disk : Disk) (ls : LocalStateFile) :
  disk !! directory_path ls = Some (contents ls) →
  load_for_directory disk (directory_path ls) = ls.
Proof. intros Hdisk. unfold load_for_directory. rewrite Hdisk. by destruct ls. Qed.

(** X7. However [unprepare] ends, it keeps the configuration values of
    the local state, in memory and on disk, keeps the set of recorded
    services, and leaves the stores of other directories alone. *)
Theorem unprepare_frame {R} (project : Project R) (w : Host) res ls' w' :
  let dir := project_directory_path project in
  let before := load_for_directory (host_disk w) dir in
  unprepare subprocess_call repr project w = (res, ls', w') →
  values (contents ls') = values (contents before) ∧
  values (contents (load_for_directory (host_disk w') dir)) = values (contents before) ∧
  (∀ name, is_Some (get_all_service_run_states ls' !! name)
           ↔ is_Some (get_all_service_run_states before !! name)) ∧
  (∀ other, other ≠ dir → host_disk w' !! other = host_disk w !! other).
Proof.
  intros dir before Hrun. unfold unprepare in Hrun. fold dir before in Hrun.
  destruct (shutdown_services_inv _ _ _ _ _ _ (NoDup_fst_map_to_list _)
              ltac:(by intros name state Hin%elem_of_map_to_list) Hrun)
    as (Hdir & Hvalues & Hother & Hsome & Hframe & Hdisk & _).
  split; [done|]. split; [|split; [|done]].
  - destruct Hdisk as [[-> _]|Hsaved]; [done|].
    change (directory_path before) with dir in Hsaved.
    unfold load_for_directory at 1. rewrite Hsaved. done.
  - intros name.
    destruct (decide (name ∈ (map_to_list (get_all_service_run_states before)).*1))
      as [Hin|Hnotin].
    + split; [|by intros _; apply Hsome].
      intros _. apply list_elem_of_fmap in Hin as [[n s] [-> Hin]].
      apply elem_of_map_to_list in Hin. by eexists.
    + by rewrite Hother.
Qed.

(** X8. When [unprepare] ends in an exception, a service that carries
    shutdown commands is still recorded with its run state on disk: a
    later [unprepare] finds it again. *)
Theorem unprepare_failure_keeps_run_state {R} (project : Project R) (w : Host) e ls' w' :
  let dir := project_directory_path project in
  unprepare subprocess_call repr project w = (Raise e, ls', w') →
  ∃ name state,
    get_all_service_run_states (load_for_directory (host_disk w) dir) !! name = Some state ∧
    is_Some (shutdown_commands state) ∧
    get_all_service_run_states (load_for_directory (host_disk w') dir) !! name = Some state.
Proof.
  intros dir Hrun. unfold unprepare in Hrun. fold dir in Hrun.
  destruct (shutdown_services_inv _ _ _ _ _ _ (NoDup_fst_map_to_list _)
              ltac:(by intros name state Hin%elem_of_map_to_list) Hrun)
    as (Hdir & _ & _ & _ & _ & Hdisk & name & state & Hin & Hcommands & Hkept).
  exists name, state. split; [by apply elem_of_map_to_list in Hin|]. split; [done|].
  destruct Hdisk as [[-> ->]|Hsaved]; [done|].
  cbn in Hsaved. unfold load_for_directory at 1. rewrite Hsaved.
  unfold get_all_service_run_states in Hkept |- *. done.
Qed.

(** X9. [unprepare] twice: after a run that returned, a second run on
    the host as the first one left it starts no command, prints nothing
    and writes nothing new. *)
Theorem unprepare_twice {R} (project : Project R) (w : Host) ls' w' :
  let dir := project_directory_path project in
  unprepare subprocess_call repr project w = (Return tt, ls', w') →
  unprepare subprocess_call repr project w'
  = (Return tt, load_for_directory (host_disk w') dir, w').
Proof.
  intros dir Hrun. unfold unprepare in Hrun |- *. fold dir in Hrun |- *.
  set (before := load_for_directory (host_disk w) dir) in *.
  destruct (shutdown_services_inv _ _ _ _ _ _ (NoDup_fst_map_to_list _)
              ltac:(by intros name state Hin%elem_of_map_to_list) Hrun)
    as (Hdir & _ & Hother & _ & _ & Hdisk & Hcleared).
  set (after := load_for_directory (host_disk w') dir).
  assert (∀ name, is_Some (get_all_service_run_states after !! name) →
                  get_all_service_run_states after !! name = Some empty_run_state) as Hempty.
  { destruct Hdisk as [[Hsame ->]|Hsaved].
    - subst after. rewrite Hsame. fold before. intros name [state Hname].
      apply Hcleared. apply list_elem_of_fmap. exists (name, state).
      split; [done|]. by apply elem_of_map_to_list.
    - cbn in Hsaved. fold dir in Hsaved.
      assert (get_all_service_run_states after = get_all_service_run_states ls') as ->.
      { subst after. unfold load_for_directory, get_all_service_run_states.
        by rewrite Hsaved. }
      intros name Hname.
      destruct (decide (name ∈ (map_to_list (get_all_service_run_states before)).*1))
        as [Hin|Hnotin]; [by apply Hcleared|].
      rewrite Hother in Hname |- * by done. destruct Hname as [state Hname].
      destruct Hnotin. apply list_elem_of_fmap. exists (name, state).
      split; [done|]. by apply elem_of_map_to_list. }
  apply shutdown_services_cleared.
  - intros name Hin. apply Hempty.
    apply list_elem_of_fmap in Hin as [[n s] [-> Hin]].
    apply elem_of_map_to_list in Hin. by eexists.
  - intros Hne. subst after.
    change (directory_path (load_for_directory (host_disk w') dir)) with dir.
    destruct (host_disk w' !! dir) as [c|] eqn:Hc.
    + unfold load_for_directory. by rewrite Hc.
    + destruct Hne. unfold load_for_directory, get_all_service_run_states. rewrite Hc. cbn.
      by rewrite map_to_list_empty.
Qed.

End Facts.
End UnprepareExtras.

(** * Further properties of the download provider *)

Module DownloadExtras.
Import LocalState Download DownloadMethods.

Section Facts.
Variable EnvVarProvider_provide :
  DownloadRequirement → ProvideContext → PyResult unit * ProvideContext.
Variable EnvVarProvider_set_config_values_as_strings :
  DownloadRequirement → Environ → LocalStateFile → gmap string string → Environ * LocalStateFile.
Variable EnvVarProvider_read_config :
  DownloadRequirement → Environ → LocalStateFile → gmap string string.
Variable EnvVarProvider_analyze :
  DownloadRequirement → Environ → LocalStateFile → ProviderAnalysis.
Variable os_path_join : string → string → string.
Variable os_path_abspath : string → string.
Variable os_path_exists : string → bool.

Local Abbreviation provide :=
  (provide EnvVarProvider_provide os_path_join os_path_abspath).
Local Abbreviation _provide_download := (_provide_download os_path_join os_path_abspath).
Local Abbreviation read_config := (read_config EnvVarProvider_read_config).
Local Abbreviation analyze := (analyze EnvVarProvider_analyze os_path_join os_path_exists).
Local Abbreviation set_config_values_as_strings :=
  (set_config_values_as_strings EnvVarProvider_set_config_values_as_strings).

(** A configuration that [read_config] returns has a source. *)
Lemma read_config_has_source requirement (environ : Environ) ls config :
  read_config requirement environ ls = Return config → is_Some (config !! "source").
Proof.
  unfold DownloadMethods.read_config.
  destruct (EnvVarProvider_read_config requirement environ ls !! "source")
    as [chosen|] eqn:Hsource; [|done].
  destruct (decide (chosen = "default")); [done|].
  destruct (decide (chosen = "unset")); intros [= <-].
  - rewrite lookup_insert_eq. by eexists.
  - by eexists.
Qed.

(** X10. [read_config] never hands out the sources ["unset"] and
    ["default"]: it returns the configuration of the superclass with
    ["unset"] turned into ["download"] and everything else as it was, and
    it fails its assertions exactly when the superclass gives no source
    or the source ["default"]. *)
Theorem read_config_source requirement (environ : Environ) ls :
  let base := EnvVarProvider_read_config requirement environ ls in
  match read_config requirement environ ls with
  | Return config =>
      ∃ chosen source,
        base !! "source" = Some chosen ∧ config !! "source" = Some source ∧
        source = (if decide (chosen = "unset") then "download" else chosen) ∧
        source ≠ "unset" ∧ source ≠ "default" ∧
        ∀ key, key ≠ "source" → config !! key = base !! key
  | Raise e =>
      e = AssertionError ∧ (base !! "source" = None ∨ base !! "source" = Some "default")
  end.
Proof.
  intros base. unfold DownloadMethods.read_config. fold base.
  destruct (base !! "source") as [chosen|] eqn:Hsource; [|by split; [|left]].
  destruct (decide (chosen = "default")) as [->|Hdefault]; [by split; [|right]|].
  destruct (decide (chosen = "unset")) as [->|Hunset].
  - exists "unset", "download". rewrite lookup_insert_eq. repeat split; try done.
    intros key Hkey. by rewrite lookup_insert_ne.
  - exists chosen, chosen. rewrite decide_False by done. done.
Qed.

(** What [_provide_download] does in every case. *)
Lemma _provide_download_cases run_download requirement context :
  match _provide_download run_download requirement context with
  | (Return (Some name), context') =>
      environ context' = environ context ∧ mode context' = mode context ∧
      analysis context' = analysis context ∧ errors context' = errors context ∧
      logs context `prefix_of` logs context'
  | (Return None, context') =>
      environ context' = environ context ∧ mode context' = mode context ∧
      analysis context' = analysis context ∧ logs context' = logs context ∧
      ∃ message, errors context' = errors context ++ [message]
  | (Raise e, context') =>
      context' = context ∧ e = KeyError "PROJECT_DIR" ∧
      environ context !! "PROJECT_DIR" = None ∧
      existing_filename (analysis context) = None
  end.
Proof.
  unfold Download._provide_download.
  destruct (existing_filename (analysis context)) as [name|] eqn:Hexisting.
  - cbn. repeat split; try done. by apply prefix_app_r.
  - unfold getitem. destruct (environ context !! "PROJECT_DIR") as [dir|] eqn:Hdir; [|done].
    destruct (run_download _ _ _) as [code|message].
    + case_decide; cbn; repeat split; try done. by eexists.
    + cbn. repeat split; try done. by eexists.
Qed.

(** X11. Whatever [provide] does after the superclass has returned, it
    keeps the mode and the analysis, leaves every variable other than
    the requirement's own as the superclass left it, never unsets the
    requirement's own, and only adds to the logs and the errors; in
    check mode, and when it raises, it changes nothing at all. *)
Theorem provide_frame run_download requirement context context1 res context2 :
  EnvVarProvider_provide requirement context = (Return tt, context1) →
  provide run_download requirement context = (res, context2) →
  mode context2 = mode context1 ∧
  analysis context2 = analysis context1 ∧
  (∀ key, key ≠ env_var requirement → environ context2 !! key = environ context1 !! key) ∧
  (is_Some (environ context1 !! env_var requirement) →
   is_Some (environ context2 !! env_var requirement)) ∧
  logs context1 `prefix_of` logs context2 ∧
  errors context1 `prefix_of` errors context2 ∧
  (mode context1 = PROVIDE_MODE_CHECK → res = Return tt ∧ context2 = context1) ∧
  (¬ returns res → context2 = context1).
Proof.
  intros Hsuper. unfold Download.provide. rewrite Hsuper.
  case_decide as Hmode.
  { intros [= <- <-]. by repeat split. }
  destruct (wants_download requirement context1) as [[]|e].
  - pose proof (_provide_download_cases run_download requirement context1) as Hcases.
    destruct (_provide_download run_download requirement context1) as [[[name|]|e] context'].
    + destruct Hcases as (Henv & Hmode' & Hanalysis & Herrors & Hlogs).
      intros [= <- <-]. cbn. rewrite Henv, Herrors.
      repeat split; try done.
      * intros key Hkey. by rewrite lookup_insert_ne.
      * intros _. rewrite lookup_insert_eq. by eexists.
    + destruct Hcases as (Henv & Hmode' & Hanalysis & Hlogs & message & Herrors).
      intros [= <- <-]. rewrite Henv, Hlogs, Herrors.
      repeat split; try done. by apply prefix_app_r.
    + destruct Hcases as (-> & _). intros [= <- <-]. by repeat split.
  - intros [= <- <-]. by repeat split.
  - intros [= <- <-]. by repeat split.
Qed.

(** X12. A file that is already there is not downloaded again. When
    [analyze] has found the file under the project directory, a
    [provide] that wants the download sets the variable to that path as
    [analyze] built it, logs one line, reports no error, and comes to the
    same whatever running the download would have given. *)
Theorem existing_file_is_not_downloaded requirement (environ0 : Environ) ls dir
    context context1 run_download run_download' :
  environ0 !! "PROJECT_DIR" = Some dir →
  os_path_exists (os_path_join dir (filename requirement)) = true →
  EnvVarProvider_provide requirement context = (Return tt, context1) →
  mode context1 ≠ PROVIDE_MODE_CHECK →
  wants_download requirement context1 = Return true →
  analyze requirement environ0 ls = Return (analysis context1) →
  provide run_download requirement context
  = (Return tt,
     mkProvideContext
       (<[env_var requirement := os_path_join dir (filename requirement)]> (environ context1))
       (mode context1) (analysis context1)
       (logs context1 ++ ["Previously downloaded file located at " +:+
                          os_path_join dir (filename requirement)])
       (errors context1)) ∧
  provide run_download' requirement context = provide run_download requirement context.
Proof.
  intros Hdir Hexists Hsuper Hmode Hwanted Hanalyze.
  unfold DownloadMethods.analyze, getitem in Hanalyze. rewrite Hdir, Hexists in Hanalyze.
  injection Hanalyze as Hanalysis.
  assert (existing_filename (analysis context1)
          = Some (os_path_join dir (filename requirement))) as Hexisting
    by (by rewrite <- Hanalysis).
  unfold Download.provide, Download._provide_download.
  rewrite Hsuper, Hwanted, Hexisting. by rewrite decide_False by done.
Qed.

(** X13. The provider's own methods set up what [provide] needs. With an
    analysis that [analyze] returned on the environment of the context
    and whose configuration [read_config] returned, a [provide] whose
    superclass leaves the environment and the analysis alone returns. *)
Theorem provide_returns_after_analyze run_download requirement ls context context1 config :
  read_config requirement (environ context) ls = Return config →
  analyze requirement (environ context) ls = Return (analysis context) →
  Download.config (analysis context) = config →
  EnvVarProvider_provide requirement context = (Return tt, context1) →
  environ context1 = environ context →
  analysis context1 = analysis context →
  ∃ context2, provide run_download requirement context = (Return tt, context2).
Proof.
  intros Hconfig Hanalyze Hsame Hsuper Henv Hanalysis.
  destruct (read_config_has_source _ _ _ _ Hconfig) as [source Hsource].
  unfold DownloadMethods.analyze, getitem in Hanalyze.
  destruct (environ context !! "PROJECT_DIR") as [dir|] eqn:Hdir; [|done].
  unfold Download.provide. rewrite Hsuper.
  case_decide; [by eexists|].
  unfold wants_download, getitem. rewrite Henv, Hanalysis, Hsame, Hsource.
  destruct (environ context !! env_var requirement).
  - case_bool_decide; [|by eexists].
    pose proof (_provide_download_cases run_download requirement context1) as Hcases.
    destruct (_provide_download run_download requirement context1) as [[[name|]|e] context'];
      [by eexists|by eexists|].
    destruct Hcases as (_ & _ & Hnone & _). rewrite Henv in Hnone. congruence.
  - pose proof (_provide_download_cases run_download requirement context1) as Hcases.
    destruct (_provide_download run_download requirement context1) as [[[name|]|e] context'];
      [by eexists|by eexists|].
    destruct Hcases as (_ & _ & Hnone & _). rewrite Henv in Hnone. congruence.
Qed.

(** X14. Choosing a source other than the environment makes the next
    [provide] want the download: [set_config_values_as_strings] removes
    the requirement's variable from the environment, leaves the other
    variables and the local state as the superclass left them, and on
    the environment it leaves [wants_download] says yes without reading
    the configuration. *)
Theorem chosen_source_forces_download requirement (environ0 : Environ) ls values source :
  values !! "source" = Some source →
  source ≠ "environ" →
  let base := EnvVarProvider_set_config_values_as_strings requirement environ0 ls values in
  let after := set_config_values_as_strings requirement environ0 ls values in
  after.1 !! env_var requirement = None ∧
  (∀ key, key ≠ env_var requirement → after.1 !! key = base.1 !! key) ∧
  after.2 = base.2 ∧
  ∀ context, environ context = after.1 → wants_download requirement context = Return true.
Proof.
  intros Hsource Hne base after. subst after. unfold Download.set_config_values_as_strings.
  fold base. destruct base as [environ1 ls1]. rewrite Hsource, decide_True by done. cbn.
  split; [apply lookup_delete_eq|]. split; [|split; [done|]].
  - intros key Hkey. by rewrite lookup_delete_ne.
  - intros context Henv. unfold wants_download. by rewrite Henv, lookup_delete_eq.
Qed.

(** Without a chosen source, or with the source ["environ"],
    [set_config_values_as_strings] does what the superclass does and no
    more: a variable given on the command line stays. *)
Lemma environ_source_keeps_variable requirement (environ0 : Environ) ls values :
  values !! "source" = None ∨ values !! "source" = Some "environ" →
  set_config_values_as_strings requirement environ0 ls values
  = EnvVarProvider_set_config_values_as_strings requirement environ0 ls values.
Proof.
  intros Hsource. unfold Download.set_config_values_as_strings.
  destruct (EnvVarProvider_set_config_values_as_strings requirement environ0 ls values)
    as [environ1 ls1].
  destruct Hsource as [->| ->]; [done|]. by rewrite decide_False by (by intros ?).
Qed.

End Facts.
End DownloadExtras.

(** * Properties of the in-place list helpers *)

Module ProjectOpsFacts.
Import ProjectOps.

Section Facts.
Context {A : Type}.

Lemma _filter_inplace_loop_spec (keep : A → bool) i (items : list A) :
  _filter_inplace_loop keep i items = take i items ++ List.filter keep (drop i items).
Proof.
  funelim (_filter_inplace_loop keep i items).
  - clear Heqcall. rename H into IHkeep, H0 into IHdrop.
    pose proof (lookup_lt_Some _ _ _ Hitem) as Hlt.
    assert (length (take i items) = i) as Hlen by (rewrite length_take; lia).
    rewrite (drop_S _ _ _ Hitem). cbn [List.filter].
    destruct (keep item).
    + rewrite IHkeep. replace (i + 1) with (S i) by lia.
      rewrite (take_S_r _ _ _ Hitem), <- app_assoc. done.
    + rewrite IHdrop, delete_take_drop.
      by rewrite take_app_length', drop_app_length'.
  - clear Heqcall. pose proof (lookup_ge_None_1 _ _ Hitem).
    by rewrite take_ge, drop_ge, app_nil_r by lia.
Qed.

(** X15. [_filter_inplace] leaves in the list exactly the items that the
    predicate accepts, in their order. *)
Theorem _filter_inplace_filter (predicate : A → bool) (items : list A) :
  _filter_inplace predicate items = List.filter predicate items.
Proof. unfold _filter_inplace. by rewrite _filter_inplace_loop_spec, drop_0. Qed.

Lemma _map_inplace_loop_spec (f : A → A) i (items : list A) :
  _map_inplace_loop f i items = take i items ++ map f (drop i items).
Proof.
  funelim (_map_inplace_loop f i items).
  - clear Heqcall. rename H into IH.
    pose proof (lookup_lt_Some _ _ _ Hitem) as Hlt.
    assert (length (take i items ++ [f item]) = S i) as Hlen
      by (rewrite length_app, length_take; cbn; lia).
    rewrite IH. replace (i + 1) with (S i) by lia.
    rewrite (drop_S _ _ _ Hitem). cbn [map].
    rewrite insert_take_drop, cons_middle, app_assoc by lia.
    by rewrite take_app_length', drop_app_length', <- app_assoc.
  - clear Heqcall. pose proof (lookup_ge_None_1 _ _ Hitem).
    by rewrite take_ge, drop_ge, app_nil_r by lia.
Qed.

(** X16. [_map_inplace] replaces every item by its image, in place. *)
Theorem _map_inplace_map (f : A → A) (items : list A) :
  _map_inplace f items = map f items.
Proof. unfold _map_inplace. by rewrite _map_inplace_loop_spec, drop_0. Qed.

End Facts.
End ProjectOpsFacts.

(** * Properties of the unpacking of archives *)

Module ArchiverFacts.
Import Builtins Archiver.

Section Facts.
Variable os_path_split : string → string * string.
Variable os_path_join : string → string → string.
Variable os_path_isabs : string → bool.
Variable os_path_abspath : string → string.
Variable os_path_realpath : string → string.
Variable os_path_dirname : string → string.
Variable os_path_exists : string → bool.
Variable os_getcwd : string.
Variable to_os_sep : string → string.
Variable recursion_limit : nat.
Variable strip : string → string.

Local Abbreviation _helper := (_helper os_path_split os_path_join).
Local Abbreviation _split_after_first :=
  (_split_after_first os_path_split os_path_join to_os_sep recursion_limit).
Local Abbreviation split_names :=
  (split_names os_path_split os_path_join to_os_sep recursion_limit).
Local Abbreviation collect_destinations :=
  (collect_destinations os_path_join os_path_abspath os_path_realpath).
Local Abbreviation _get_source_and_dest_files :=
  (_get_source_and_dest_files os_path_split os_path_join os_path_isabs os_path_abspath
     os_path_realpath os_path_dirname os_path_exists os_getcwd to_os_sep recursion_limit).

Lemma _helper_returns depth head tail first rest :
  _helper depth head tail = Return (first, rest) →
  (os_path_split first).1 = "" ∧ (rest = None → tail = None ∧ first = head).
Proof.
  revert head tail. induction depth as [|depth IH]; intros head tail; [done|].
  cbn [Archiver._helper].
  destruct (os_path_split head) as [dirname filename] eqn:Hsplit.
  case_decide as Hdir.
  - intros [= <- <-]. rewrite Hsplit. done.
  - destruct tail as [tail|]; intros Hrec; apply IH in Hrec as [Hfirst Hrest];
      (split; [done|]); intros ->; by destruct (Hrest eq_refl).
Qed.

(** X17. What [_split_after_first] returns as the first part has no
    directory part of its own, and when there is no remainder the first
    part is the whole path. *)
Theorem _split_after_first_first_component path first rest :
  _split_after_first path = Return (first, rest) →
  (os_path_split first).1 = "" ∧ (rest = None → first = to_os_sep path).
Proof.
  unfold Archiver._split_after_first. intros Hsplit.
  apply _helper_returns in Hsplit as [Hfirst Hrest].
  split; [done|]. intros ->. by destruct (Hrest eq_refl).
Qed.

(** X18. A path that [os.path.split] maps to itself as directory, as it
    does the root directory, makes [_helper] call itself until the
    interpreter gives up; so does every path whose directory does. *)
Theorem _helper_recursion_error head dirname filename :
  os_path_split head = (dirname, filename) →
  dirname ≠ "" →
  (dirname = head ∨ ∀ depth tail, _helper depth dirname tail = Raise RecursionError) →
  ∀ depth tail, _helper depth head tail = Raise RecursionError.
Proof.
  intros Hsplit Hne Hdir depth. induction depth as [|depth IH]; intros tail; [done|].
  cbn [Archiver._helper]. rewrite Hsplit, decide_False by done.
  destruct Hdir as [->|Hstuck].
  - destruct tail; apply IH.
  - destruct tail; apply Hstuck.
Qed.

Lemma split_names_spec names items :
  split_names names = Return items →
  map (λ item, item.1.1) items = names ∧
  Forall (λ item, _split_after_first item.1.1 = Return (item.1.2, item.2)) items.
Proof.
  revert items. induction names as [|name names IH]; intros items.
  - by intros [= <-].
  - cbn [Archiver.split_names].
    destruct (_split_after_first name) as [[prefix remainder]|e] eqn:Hsplit; [|done].
    destruct (split_names names) as [items'|e]; [|done].
    intros [= <-]. destruct (IH _ eq_refl) as [Hnames Hitems].
    cbn. split; [by rewrite Hnames|]. by constructor.
Qed.

Lemma collect_destinations_spec items candidate dir acc errors :
  match collect_destinations items candidate dir acc errors with
  | (Some src_and_dest, errors') =>
      errors' = errors ∧
      Forall (λ item, item.1.2 = candidate) items ∧
      ∃ added,
        src_and_dest = acc ++ added ∧
        map fst added `sublist_of` map (λ item, item.1.1) items ∧
        Forall (λ pair, startswith pair.2 dir = true) added
  | (None, errors') => ∃ message, errors' = errors ++ [message]
  end.
Proof.
  revert acc. induction items as [|[[name prefix] remainder] items IH]; intros acc.
  - cbn. split; [done|]. split; [done|]. exists []. by rewrite app_nil_r.
  - cbn [Archiver.collect_destinations]. case_decide as Hprefix; [by eexists|].
    assert (prefix = candidate) as -> by (by destruct (decide (prefix = candidate))).
    destruct remainder as [remainder|].
    + destruct (startswith _ dir) eqn:Hstarts; cbn [negb]; [|by eexists].
      specialize (IH (acc ++ [(name, os_path_realpath
                                        (os_path_abspath (os_path_join dir remainder)))])).
      destruct (collect_destinations items candidate dir _ errors) as [[src_and_dest|] errors'];
        [|done].
      destruct IH as (-> & Hall & added & -> & Hsub & Hdest).
      split; [done|]. split; [by constructor|].
      eexists (_ :: added). rewrite <- app_assoc. split; [done|]. cbn.
      split; [by apply sublist_skip|]. by constructor.
    + specialize (IH acc).
      destruct (collect_destinations items candidate dir acc errors) as [[src_and_dest|] errors'];
        [|done].
      destruct IH as (-> & Hall & added & -> & Hsub & Hdest).
      split; [done|]. split; [by constructor|].
      exists added. split; [done|]. split; [by apply sublist_cons|done].
Qed.

(** X19. What [_get_source_and_dest_files] hands out on success: a
    project directory that does not exist yet; destinations that all
    begin with the name of that directory; sources that are names of the
    archive, in the order of the archive; and every name of the archive
    under one and the same first directory, which is not [".."]. The
    list of errors is as it was. *)
Theorem unpack_plan_stays_under_project_dir archive_path list_files project_dir parent_dir
    errors dir src_and_dest errors' :
  _get_source_and_dest_files archive_path list_files project_dir parent_dir errors
  = (Return (Some (dir, src_and_dest)), errors') →
  errors' = errors ∧
  os_path_exists dir = false ∧
  Forall (λ pair, startswith pair.2 dir = true) src_and_dest ∧
  map fst src_and_dest `sublist_of` list_files archive_path ∧
  ∃ candidate_prefix,
    candidate_prefix ≠ ".." ∧
    ∀ name, name ∈ list_files archive_path →
      ∃ remainder, _split_after_first name = Return (candidate_prefix, remainder).
Proof.
  unfold Archiver._get_source_and_dest_files.
  destruct (list_files archive_path) as [|name0 names] eqn:Hnames; [done|].
  destruct (split_names (name0 :: names)) as [items|e] eqn:Hitems; [|done].
  destruct items as [|[[first_name candidate] remainder0] items]; [done|].
  case_decide as Hdots; [done|].
  match goal with |- context [match ?d with Return _ => _ | Raise _ => _ end] =>
    destruct d as [[project parent]|e] end; [|done].
  destruct (startswith project parent); cbn [negb]; [|done].
  destruct (os_path_exists project) eqn:Hexists; [done|].
  pose proof (collect_destinations_spec ((first_name, candidate, remainder0) :: items)
                candidate project [] errors) as Hcollect.
  destruct (collect_destinations _ candidate project [] errors) as [[pairs|] errors1]; [|done].
  destruct Hcollect as (-> & Hall & added & -> & Hsub & Hdest).
  intros [= <- <- <-].
  apply split_names_spec in Hitems as [Hmap Hsplit]. rewrite Hmap in Hsub.
  split; [done|]. split; [done|]. split; [done|]. split; [done|].
  exists candidate. split; [done|].
  intros name Hin. rewrite <- Hmap in Hin.
  apply list_elem_of_fmap in Hin as [[[n p] r] [-> Hin]].
  rewrite Forall_forall in Hall, Hsplit.
  specialize (Hall _ Hin). specialize (Hsplit _ Hin). cbn in Hall, Hsplit. subst p.
  by exists r.
Qed.

(** X20. When [_get_source_and_dest_files] returns [None] it has added
    exactly one message to the errors; when it returns a plan or raises
    it has added none. *)
Theorem failed_unpack_plan_reports_one_error archive_path list_files project_dir parent_dir
    errors :
  match _get_source_and_dest_files archive_path list_files project_dir parent_dir errors with
  | (Return None, errors') => ∃ message, errors' = errors ++ [message]
  | (Return (Some _), errors') => errors' = errors
  | (Raise _, errors') => errors' = errors
  end.
Proof.
  unfold Archiver._get_source_and_dest_files.
  destruct (list_files archive_path) as [|name0 names]; [by eexists|].
  destruct (split_names (name0 :: names)) as [items|e]; [|done].
  destruct items as [|[[first_name candidate] remainder0] items]; [done|].
  case_decide; [by eexists|].
  match goal with |- context [match ?d with Return _ => _ | Raise _ => _ end] =>
    destruct d as [[project parent]|e] end; [|done].
  destruct (startswith project parent); cbn [negb]; [|done].
  destruct (os_path_exists project); [by eexists|].
  pose proof (collect_destinations_spec ((first_name, candidate, remainder0) :: items)
                candidate project [] errors) as Hcollect.
  destruct (collect_destinations _ candidate project [] errors) as [[pairs|] errors1]; [|done].
  by destruct Hcollect as (-> & _).
Qed.

Lemma parse_lines_spec lines patterns :
  ∃ parsed, parse_lines strip lines patterns = Return (patterns ++ parsed) ∧
    Forall (λ pattern, pattern ≠ "") parsed ∧
    Forall (λ pattern, ∃ line, line ∈ lines ∧ startswith (strip line) "#" = false ∧
                        (pattern = strip line ∨ strip line = "\" +:+ pattern)) parsed.
Proof.
  revert patterns. induction lines as [|line lines IH]; intros patterns.
  - exists []. by rewrite app_nil_r.
  - cbn [parse_lines].
    assert (∀ parsed,
              Forall (λ pattern, ∃ l, l ∈ lines ∧ startswith (strip l) "#" = false ∧
                                  (pattern = strip l ∨ strip l = "\" +:+ pattern)) parsed →
              Forall (λ pattern, ∃ l, l ∈ line :: lines ∧ startswith (strip l) "#" = false ∧
                                  (pattern = strip l ∨ strip l = "\" +:+ pattern)) parsed)
      as Hweaken.
    { intros parsed Hparsed. eapply Forall_impl; [exact Hparsed|].
      intros pattern (l & Hl & Hrest). exists l. split; [by right|done]. }
    destruct (startswith (strip line) "#") eqn:Hcomment.
    { destruct (IH patterns) as (parsed & -> & Hne & Hfrom).
      exists parsed. auto. }
    set (unescaped := if startswith (strip line) "\#"
                      then match strip line with
                           | String _ tail => tail
                           | EmptyString => strip line
                           end
                      else strip line).
    assert (unescaped = strip line ∨ strip line = "\" +:+ unescaped) as Hunescaped.
    { subst unescaped. destruct (startswith (strip line) "\#") eqn:Hescaped; [|by left].
      right. unfold startswith in Hescaped. destruct (strip line) as [|c tail]; [done|].
      apply String.prefix_correct in Hescaped. cbn in Hescaped.
      by injection Hescaped as -> _. }
    case_decide as Hempty.
    + unfold _FilePattern. rewrite decide_False by done.
      destruct (IH (patterns ++ [unescaped])) as (parsed & -> & Hne & Hfrom).
      exists (unescaped :: parsed). rewrite <- app_assoc. split; [done|].
      split; [by constructor|]. constructor; [|by apply Hweaken].
      exists line. split; [by left|]. done.
    + destruct (IH patterns) as (parsed & -> & Hne & Hfrom).
      exists parsed. auto.
Qed.

(** X21. Reading the ignore file never trips the assertion of
    [_FilePattern]. When the reading gets to the end of the file, or
    ends with an [OSError] or [IOError] that says the file is absent,
    [_parse_ignore_file] returns patterns and adds no error: none of
    them is empty, and each is the stripped text of a line that is not a
    comment, without the backslash that may escape a leading hash. An
    [OSError] or [IOError] of another kind gives [None] and one error.
    An exception of another class, as the [UnicodeDecodeError] of a file
    that is not UTF-8, is not caught: it leaves the function, and the
    errors are as they were. *)
Theorem parse_ignore_file_patterns filename read errors :
  match read_end read with
  | ReadOSError false message =>
      _parse_ignore_file strip filename read errors
      = (Return None, errors ++ ["Failed to read " +:+ filename +:+ ": " +:+ message])
  | ReadRaises e =>
      _parse_ignore_file strip filename read errors = (Raise e, errors)
  | EndOfFile | ReadOSError true _ =>
      ∃ patterns,
        _parse_ignore_file strip filename read errors = (Return (Some patterns), errors) ∧
        Forall (λ pattern, pattern ≠ "") patterns ∧
        Forall (λ pattern, ∃ line, line ∈ lines_read read ∧
                            startswith (strip line) "#" = false ∧
                            (pattern = strip line ∨ strip line = "\" +:+ pattern))
               patterns
  end.
Proof.
  unfold _parse_ignore_file.
  destruct (parse_lines_spec (lines_read read) []) as (parsed & Hparse & Hne & Hfrom).
  rewrite Hparse. cbn [app].
  destruct (read_end read) as [|[] message|e]; [by exists parsed|by exists parsed|done|done].
Qed.

End Facts.
End ArchiverFacts.

(** * The further properties on the stubs *)

Module ExtraInstances.
Import LocalState Prepare Scenario Stubs Builtins.
Import PrepareFacts PrepareExtras UnprepareExtras DownloadExtras ArchiverFacts.

(** X1 on the mode ["gui"]. *)
Lemma prepare_rejects_unknown_mode_witness :
  let out := prepare (mkProject "/project" [DATA_CSV]) "gui" {["HOME" := "/root"]} ∅ in
  ("gui" ∉ _all_ui_modes) ∧
  result out = Raise (ValueError "invalid UI mode gui") ∧
  caller_environ out = {["HOME" := "/root"]}.
Proof.
  intros out.
  assert ("gui" ∉ _all_ui_modes) as Hmode.
  { unfold _all_ui_modes. rewrite !not_elem_of_cons. repeat split; try done.
    apply not_elem_of_nil. }
  split; [done|].
  by apply (prepare_rejects_unknown_mode (mkProject "/project" [DATA_CSV]) "gui"
              {["HOME" := "/root"]} ∅).
Defined.

(** X2 on a provider whose [read_config] fails its assertion. *)
Lemma prepare_raises_only_witness :
  let run :=
    @Unguarded.prepare EnvVarRequirement StubProvider unit
      Unguarded.returning_requirement asserting_provider Unguarded.returning_ui
      (mkProject "/project" [DATA_CSV]) UI_MODE_NOT_INTERACTIVE {["HOME" := "/root"]}
      default_source_disk in
  result run = Raise AssertionError ∧ caller_environ run = {["HOME" := "/root"]}.
Proof.
  intros run.
  assert (result run = Raise AssertionError) as Hresult by (vm_compute; reflexivity).
  split; [exact Hresult|].
  destruct (@UnguardedFacts.prepare_raises_only EnvVarRequirement StubProvider unit
              Unguarded.returning_requirement asserting_provider Unguarded.returning_ui
              (mkProject "/project" [DATA_CSV]) UI_MODE_NOT_INTERACTIVE
              {["HOME" := "/root"]} default_source_disk AssertionError Hresult)
    as [Henviron _].
  exact Henviron.
Defined.

(** X3 on providers that return. *)
Lemma prepare_returns_witness :
  let project := mkProject "/project" [DATA_CSV_failing; REDIS_URL] in
  UI_MODE_BROWSER ∈ [UI_MODE_BROWSER; UI_MODE_NOT_INTERACTIVE] ∧
  ∃ b, result (@Unguarded.prepare EnvVarRequirement StubProvider unit
                 Unguarded.returning_requirement Unguarded.returning_provider
                 Unguarded.returning_ui project UI_MODE_BROWSER ∅ ∅) = Return b.
Proof.
  intros project.
  assert (UI_MODE_BROWSER ∈ [UI_MODE_BROWSER; UI_MODE_NOT_INTERACTIVE]) as Hmode by left.
  split; [exact Hmode|].
  apply (@UnguardedFacts.prepare_returns EnvVarRequirement StubProvider unit
           Unguarded.returning_requirement Unguarded.returning_provider
           Unguarded.returning_ui project UI_MODE_BROWSER ∅ ∅ Hmode).
  - intros r _. split; [exact I|]. intros env. exact I.
  - intros ui context. exact I.
  - intros pairs entry [= <-] Hin. cbn in Hin.
    apply elem_of_cons in Hin as [->|Hin]; [split; intros; exact I|].
    apply elem_of_cons in Hin as [->|Hin]; [split; intros; exact I|].
    by apply elem_of_nil in Hin.
Defined.

(** X4 on a provider that sets its variable, followed by one that logs
    and reports an error. *)
Lemma logs_only_with_errors_witness :
  let project := mkProject "/project" [REDIS_URL; DATA_CSV_failing] in
  ∃ st (provided : list (StubProvider * EnvVarRequirement * ProvideContext unit)),
    working (prepare project UI_MODE_NOT_INTERACTIVE ∅ ∅) = Some st ∧
    stdout st = flat_map (λ item, printed_logs item.2) provided ∧
    stdout st = ["starting download"] ∧
    flat_map (λ item, errors item.2) provided `prefix_of` stderr st.
Proof.
  intros project.
  assert (∃ st, working (prepare project UI_MODE_NOT_INTERACTIVE ∅ ∅) = Some st ∧
                stdout st = ["starting download"])
    as (st & Hst & Hstdout) by (vm_compute; eexists; split; reflexivity).
  destruct (logs_only_with_errors project UI_MODE_NOT_INTERACTIVE ∅ ∅ st Hst)
    as (provided & raised & _ & _ & _ & _ & Hprinted & Hstderr & _).
  exists st, provided. split; [exact Hst|]. split; [exact Hprinted|].
  split; [exact Hstdout|exact Hstderr].
Defined.

(** X5 on an environment that has everything. *)
Lemma prepare_noop_when_met_witness :
  let project := mkProject "/project" [DATA_CSV; REDIS_URL] in
  let environ : Environ := {["DATA_CSV" := "/data.csv"; "REDIS_URL" := "redis://here"]} in
  (∀ r, r ∈ requirements project → why_not_provided r environ = None) ∧
  result (prepare project UI_MODE_NOT_INTERACTIVE environ ∅) = Return true ∧
  caller_environ (prepare project UI_MODE_NOT_INTERACTIVE environ ∅) = environ.
Proof.
  intros project environ.
  assert (∀ r, r ∈ requirements project → why_not_provided r environ = None) as Hmet.
  { intros r Hin. apply elem_of_cons in Hin as [->|Hin]; [vm_compute; reflexivity|].
    apply elem_of_cons in Hin as [->|Hin]; [vm_compute; reflexivity|].
    by apply elem_of_nil in Hin. }
  split; [done|].
  destruct (prepare_noop_when_met project UI_MODE_NOT_INTERACTIVE environ ∅)
    as (Hresult & Henviron & _); [by right; left|done|].
  by split.
Defined.

(** X6 on two runs over a project of two downloads. *)
Lemma prepare_twice_witness :
  let project := mkProject "/project" [DATA_CSV; REDIS_URL] in
  let first := prepare project UI_MODE_NOT_INTERACTIVE {["HOME" := "/root"]} ∅ in
  let second := prepare project UI_MODE_NOT_INTERACTIVE (caller_environ first) ∅ in
  result first = Return true ∧
  result second = Return true ∧
  caller_environ second = caller_environ first.
Proof.
  intros project first second.
  assert (result first = Return true) as Hfirst by (vm_compute; reflexivity).
  assert (∃ st, working first = Some st ∧ is_Some (environ_copy st !! "HOME"))
    as (st & Hst & Hhome) by (vm_compute; eexists; split; [reflexivity|by eexists]).
  split; [done|].
  destruct (prepare_twice project UI_MODE_NOT_INTERACTIVE {["HOME" := "/root"]} ∅ ∅ st
              Hfirst Hst) as (Hsecond & Hsame & _); [|by split].
  intros key [value Hkey]. by apply lookup_singleton_Some in Hkey as [<- _].
Defined.

(** X7 on the recorded services, with commands that exit with status 1. *)
Lemma unprepare_frame_witness :
  let run := unprepare always_fails stub_repr (mkProject "/project" [FOO])
                       (mkHost (<["/other" := empty_contents]> recorded_disk) 0 [] []) in
  values (contents run.1.2) = ∅ ∧
  host_disk run.2 !! "/other" = Some empty_contents.
Proof.
  intros run. destruct run as [[res ls'] w'] eqn:Hrun.
  destruct (unprepare_frame always_fails stub_repr (mkProject "/project" [FOO]) _ _ _ _ Hrun)
    as (Hvalues & _ & _ & Hother).
  split.
  - etrans; [exact Hvalues|]. vm_compute. reflexivity.
  - etrans; [by apply Hother|]. vm_compute. reflexivity.
Defined.

(** X8 on a host where no command starts. *)
Lemma unprepare_failure_keeps_run_state_witness :
  let project := mkProject "/project" [FOO] in
  let w := mkHost recorded_disk 0 [] [] in
  ∃ e ls' w',
    unprepare never_starts stub_repr project w = (Raise e, ls', w') ∧
    ∃ name state,
      is_Some (shutdown_commands state) ∧
      get_all_service_run_states
        (load_for_directory (host_disk w') (project_directory_path project)) !! name
      = Some state.
Proof.
  intros project w.
  assert (∃ e ls' w', unprepare never_starts stub_repr project w = (Raise e, ls', w'))
    as (e & ls' & w' & Hrun) by (vm_compute; eexists _, _, _; reflexivity).
  exists e, ls', w'. split; [exact Hrun|].
  destruct (unprepare_failure_keeps_run_state never_starts stub_repr project w e ls' w' Hrun)
    as (name & state & _ & Hcommands & Hkept).
  exists name, state. split; [exact Hcommands|exact Hkept].
Defined.

(** X9 on the recorded services. *)
Lemma unprepare_twice_witness :
  let project := mkProject "/project" [FOO] in
  ∃ ls' w',
    unprepare always_fails stub_repr project (mkHost recorded_disk 0 [] [])
    = (Return tt, ls', w') ∧
    unprepare always_fails stub_repr project w'
    = (Return tt, load_for_directory (host_disk w') (project_directory_path project), w').
Proof.
  intros project.
  assert (∃ ls' w',
            unprepare always_fails stub_repr project (mkHost recorded_disk 0 [] [])
            = (Return tt, ls', w')) as (ls' & w' & Hrun)
    by (vm_compute; eexists _, _; reflexivity).
  exists ls', w'. split; [exact Hrun|].
  exact (unprepare_twice always_fails stub_repr project _ ls' w' Hrun).
Defined.

(** X11 on a download that answers 200. *)
Lemma provide_frame_witness :
  let context := context_in {["PROJECT_DIR" := "/project"; "HOME" := "/root"]} in
  let run := Download.provide base_provide unix_join unix_abspath (server_answers 200)
                              data_csv context in
  base_provide data_csv context = (Return tt, context) ∧
  Download.environ run.2 !! "HOME" = Some "/root" ∧
  Download.analysis run.2 = Download.analysis context.
Proof.
  intros context run.
  assert (base_provide data_csv context = (Return tt, context)) as Hsuper by reflexivity.
  split; [done|]. destruct run as [res context2] eqn:Hrun.
  destruct (provide_frame base_provide unix_join unix_abspath (server_answers 200)
              data_csv context context res context2 Hsuper Hrun)
    as (_ & Hanalysis & Hother & _).
  split; [|done]. etrans; [by apply Hother|]. vm_compute. reflexivity.
Defined.

(** X12 on a project directory that already holds the file, with a
    server that is down. *)
Lemma existing_file_is_not_downloaded_witness :
  let environ : Environ := {["PROJECT_DIR" := "/project"]} in
  let found := Download.mkAnalysis {["source" := "download"]} [] ["DATA_CSV"]
                                   (Some "/project/data.csv") in
  let context := Download.mkProvideContext environ Download.PROVIDE_MODE_PRODUCTION
                                           found [] [] in
  DownloadMethods.analyze base_analyze unix_join only_data_csv data_csv environ
                          (load_for_directory ∅ "/project")
  = Return found ∧
  Download.provide base_provide unix_join unix_abspath server_is_down data_csv context
  = (Return tt,
     Download.mkProvideContext (<["DATA_CSV" := "/project/data.csv"]> environ)
       Download.PROVIDE_MODE_PRODUCTION found
       ["Previously downloaded file located at /project/data.csv"] []).
Proof.
  intros environ found context.
  assert (DownloadMethods.analyze base_analyze unix_join only_data_csv data_csv environ
            (load_for_directory ∅ "/project") = Return found) as Hanalyze
    by (vm_compute; reflexivity).
  split; [done|].
  destruct (existing_file_is_not_downloaded base_provide base_analyze unix_join unix_abspath
              only_data_csv data_csv environ (load_for_directory ∅ "/project") "/project"
              context context server_is_down server_is_down)
    as [Hprovide _]; done.
Defined.

(** X13 on a configuration without a chosen source. *)
Lemma provide_returns_after_analyze_witness :
  let environ : Environ := {["PROJECT_DIR" := "/project"]} in
  let ls := load_for_directory ∅ "/project" in
  let found := Download.mkAnalysis {["source" := "download"]} [] ["DATA_CSV"]
                                   (Some "/project/data.csv") in
  let context := Download.mkProvideContext environ Download.PROVIDE_MODE_PRODUCTION
                                           found [] [] in
  DownloadMethods.read_config base_read_config data_csv environ ls
  = Return {["source" := "download"]} ∧
  ∃ context2,
    Download.provide base_provide unix_join unix_abspath server_is_down data_csv context
    = (Return tt, context2).
Proof.
  intros environ ls found context.
  assert (DownloadMethods.read_config base_read_config data_csv environ ls
          = Return {["source" := "download"]}) as Hconfig by (vm_compute; reflexivity).
  split; [done|].
  apply (provide_returns_after_analyze base_provide base_read_config base_analyze unix_join
           unix_abspath only_data_csv server_is_down data_csv ls context context
           {["source" := "download"]}); done.
Defined.

(** X14 on a variable that was set on the command line. *)
Lemma chosen_source_forces_download_witness :
  let environ : Environ := {["DATA_CSV" := "/tmp/mine.csv"; "HOME" := "/root"]} in
  let values : gmap string string := {["source" := "download"]} in
  let after := Download.set_config_values_as_strings base_set_config_values data_csv environ
                 (load_for_directory ∅ "/project") values in
  values !! "source" = Some "download" ∧
  after.1 !! "DATA_CSV" = None ∧
  Download.wants_download data_csv (context_in after.1) = Return true.
Proof.
  intros environ values after.
  assert (values !! "source" = Some "download") as Hsource by (vm_compute; reflexivity).
  split; [done|].
  destruct (chosen_source_forces_download base_set_config_values data_csv environ
              (load_for_directory ∅ "/project") values "download" Hsource)
    as (Hgone & _ & _ & Hwants); [done|].
  split; [done|]. by apply Hwants.
Defined.

(** X17 on a relative path of three components. *)
Lemma _split_after_first_first_component_witness :
  Archiver._split_after_first posix_split posix_join same_path 1000 "proj/data/x.csv"
  = Return ("proj", Some "data/x.csv") ∧
  (posix_split "proj").1 = "".
Proof.
  assert (Archiver._split_after_first posix_split posix_join same_path 1000 "proj/data/x.csv"
          = Return ("proj", Some "data/x.csv")) as Hsplit by (vm_compute; reflexivity).
  split; [done|].
  by apply (_split_after_first_first_component posix_split posix_join same_path 1000
              "proj/data/x.csv" "proj" (Some "data/x.csv")).
Defined.

(** X18 on an absolute path: the root directory is its own directory. *)
Lemma _helper_recursion_error_witness :
  posix_split "/" = ("/", "") ∧
  ∀ depth tail,
    Archiver._helper posix_split posix_join depth "/etc/passwd" tail = Raise RecursionError.
Proof.
  assert (posix_split "/" = ("/", "")) as Hroot by (vm_compute; reflexivity).
  split; [done|].
  apply (_helper_recursion_error posix_split posix_join "/etc/passwd" "/etc" "passwd");
    [vm_compute; reflexivity|done|right].
  apply (_helper_recursion_error posix_split posix_join "/etc" "/" "etc");
    [vm_compute; reflexivity|done|right].
  apply (_helper_recursion_error posix_split posix_join "/" "/" ""); [done|done|by left].
Defined.

(** X19 on an archive of one directory, unpacked under [/cwd]. *)
Lemma unpack_plan_stays_under_project_dir_witness :
  Archiver._get_source_and_dest_files posix_split posix_join posix_isabs same_path same_path
    posix_dirname nothing_exists "/cwd" same_path 1000
    "proj.zip" archive_names None None []
  = (Return (Some ("/cwd/proj",
                   [("proj/project.yml", "/cwd/proj/project.yml");
                    ("proj/data/x.csv", "/cwd/proj/data/x.csv")])), []) ∧
  Forall (λ pair, startswith pair.2 "/cwd/proj" = true)
         [("proj/project.yml", "/cwd/proj/project.yml");
          ("proj/data/x.csv", "/cwd/proj/data/x.csv")].
Proof.
  assert (Archiver._get_source_and_dest_files posix_split posix_join posix_isabs same_path
            same_path posix_dirname nothing_exists "/cwd" same_path 1000
            "proj.zip" archive_names None None []
          = (Return (Some ("/cwd/proj",
                           [("proj/project.yml", "/cwd/proj/project.yml");
                            ("proj/data/x.csv", "/cwd/proj/data/x.csv")])), [])) as Hplan
    by (vm_compute; reflexivity).
  split; [done|].
  by apply (unpack_plan_stays_under_project_dir posix_split posix_join posix_isabs same_path
              same_path posix_dirname nothing_exists "/cwd" same_path 1000
              "proj.zip" archive_names None None [] _ _ _ Hplan).
Defined.

End ExtraInstances.
